(** * deep-plan: section manifest, section progress, resume step and TODO list

    A shallow embedding of [scripts/lib/sections.py], [scripts/lib/todos.py]
    and [infer_resume_step] of [scripts/checks/setup-planning-session.py].

    Conventions of the embedding.
    - A Python [str] is a [string]; a character is a code point below 256.
    - A Python [int] is a [Z].
    - [str.find] returning [-1] is [None] of [String.index].
    - A Python exception is the left injection of a sum type.
    - A [set] of strings is a [gset string]. *)

From stdpp Require Import base list strings gmap sorting.
From Stdlib Require Import ZArith Lia Ascii String DecimalString.

Local Open Scope Z_scope.

(** ** Characters and strings *)

Module Str.

Definition code (c : ascii) : nat := nat_of_ascii c.

Definition in_range (lo hi : nat) (c : ascii) : bool :=
  (Nat.leb lo (code c)) && (Nat.leb (code c) hi).

(** [\d] of [re] on code points below 256. *)
Definition is_digit (c : ascii) : bool := in_range 48 57 c.

(** [str.isspace] on code points below 256: TAB..CR, FS..US, space,
    NEL and NBSP.  This is the set [str.strip()] removes. *)
Definition is_space (c : ascii) : bool :=
  in_range 9 13 c || in_range 28 32 c
  || Nat.eqb (code c) 133 || Nat.eqb (code c) 160.

Definition newline : ascii := ascii_of_nat 10.

Definition is_empty (s : string) : bool :=
  match s with EmptyString => true | String _ _ => false end.

Fixpoint lstrip (s : string) : string :=
  match s with
  | EmptyString => EmptyString
  | String c s' => if is_space c then lstrip s' else s
  end.

Fixpoint rstrip (s : string) : string :=
  match s with
  | EmptyString => EmptyString
  | String c s' =>
      let r := rstrip s' in
      if is_space c && is_empty r then EmptyString else String c r
  end.

(** [s.strip()] *)
Definition strip (s : string) : string := rstrip (lstrip s).

Fixpoint split_aux (sep : ascii) (s : string) : string * list string :=
  match s with
  | EmptyString => (EmptyString, [])
  | String c s' =>
      let '(l, ls) := split_aux sep s' in
      if Ascii.eqb c sep then (EmptyString, l :: ls) else (String c l, ls)
  end.

(** [s.split(sep)] for a one-character separator: never the empty list. *)
Definition split (sep : ascii) (s : string) : list string :=
  let '(l, ls) := split_aux sep s in l :: ls.

(** [s[i:j]] for [0 <= i] and [0 <= j]. *)
Definition slice (i j : nat) (s : string) : string :=
  String.substring i (j - i) s.

(** [s.startswith(p)], returning the rest. *)
Fixpoint strip_prefix (p s : string) : option string :=
  match p, s with
  | EmptyString, _ => Some s
  | String a p', String b s' =>
      if Ascii.eqb a b then strip_prefix p' s' else None
  | String _ _, EmptyString => None
  end.

(** Longest prefix of characters satisfying [p], and the rest. *)
Fixpoint span (p : ascii -> bool) (s : string) : string * string :=
  match s with
  | EmptyString => (EmptyString, EmptyString)
  | String c s' =>
      if p c then let '(a, b) := span p s' in (String c a, b)
      else (EmptyString, s)
  end.

Definition digit_val (c : ascii) : Z := Z.of_nat (code c) - 48.

Fixpoint int_acc (acc : Z) (s : string) : Z :=
  match s with
  | EmptyString => acc
  | String c s' => int_acc (10 * acc + digit_val c) s'
  end.

(** [int(s)] for a string of decimal digits. *)
Definition int (s : string) : Z := int_acc 0 s.

(** [str(n)] / [f"{n}"] for an integer. *)
Definition of_Z (n : Z) : string := NilZero.string_of_int (Z.to_int n).

(** [f"{n:02d}"]: at least two characters, padded with zeros. *)
Definition fmt_02d (n : Z) : string :=
  let s := of_Z n in
  if Nat.ltb (String.length s) 2 then String "0" s else s.

Definition concat (l : list string) : string :=
  fold_right String.append EmptyString l.

End Str.

(** ** Python exceptions that the modelled code can raise *)

Inductive exn : Type :=
  | AttributeError.   (* [None.group(1)] *)

Definition result (A : Type) : Type := (exn + A)%type.

(** ** [scripts/lib/sections.py] *)

Module Sections.

Definition MANIFEST_START : string := "<!-- SECTION_MANIFEST"%string.
Definition MANIFEST_END : string := "END_MANIFEST -->"%string.

Definition is_name_char (c : ascii) : bool :=
  Str.in_range 97 122 c || Str.in_range 65 90 c || Str.in_range 48 57 c
  || Nat.eqb (Str.code c) 95 || Nat.eqb (Str.code c) 45.

(** [SECTION_NAME_PATTERN.match(s)], the regular expression
    [^section-(\d{2})-([a-zA-Z0-9_-]+)$]; the result is the pair of
    groups 1 and 2.  [$] also matches just before a final newline. *)
Definition SECTION_NAME_PATTERN_match (s : string) : option (string * string) :=
  match Str.strip_prefix "section-" s with
  | Some (String d1 (String d2 (String dash rest))) =>
      if Str.is_digit d1 && Str.is_digit d2 && Ascii.eqb dash "-" then
        let '(name, tail) := Str.span is_name_char rest in
        if negb (Str.is_empty name)
           && (Str.is_empty tail
               || String.eqb tail (String Str.newline EmptyString))
        then Some (String d1 (String d2 EmptyString), name)
        else None
      else None
  | _ => None
  end.

(** The key of both [sort] and the gap loop:
    [int(SECTION_NAME_PATTERN.match(x).group(1))].  Every string it is
    applied to was matched by the line loop (lemma [parse_lines_sound]),
    so the [None] case, which would raise in Python, is never taken. *)
Definition section_number (x : string) : Z :=
  match SECTION_NAME_PATTERN_match x with
  | Some (num, _) => Str.int num
  | None => 0
  end.

(** The failure exits of [parse_manifest_block], in source order. *)
Inductive manifest_error : Type :=
  | NoManifestBlock
  | UnclosedManifestBlock
  | EmptyManifestBlock
  | InvalidSectionName (line_num : Z) (line : string)
  | DuplicateSectionNumber (line_num : Z) (line : string) (section_num : string)
  | NoValidSections.

Definition error_message (e : manifest_error) : string :=
  match e with
  | NoManifestBlock =>
      Str.concat
        ["No SECTION_MANIFEST block found in index.md. ";
         "index.md must start with a SECTION_MANIFEST block. ";
         "See SKILL.md step 18 for the required format."]%string
  | UnclosedManifestBlock =>
      "SECTION_MANIFEST block not closed (missing END_MANIFEST -->)"%string
  | EmptyManifestBlock =>
      "SECTION_MANIFEST block is empty. Add section definitions, one per line."%string
  | InvalidSectionName line_num line =>
      Str.concat
        ["Invalid section name on line "; Str.of_Z line_num; ": '"; line; "'. ";
         "Expected format: section-NN-name (e.g., section-01-foundation). ";
         "Section numbers must be two digits (01, 02, etc.)."]%string
  | DuplicateSectionNumber line_num line section_num =>
      Str.concat
        ["Duplicate section number on line "; Str.of_Z line_num; ": '"; line; "'. ";
         "Section "; section_num; " already defined."]%string
  | NoValidSections =>
      "No valid sections found in SECTION_MANIFEST block"%string
  end.

(** The dict returned by [parse_manifest_block]. *)
Record manifest_result : Type := mk_manifest_result {
  success : bool;
  sections : list string;
  error : option string;
  warnings : list string;
}.

Definition failure (warnings : list string) (e : manifest_error) : manifest_result :=
  {| success := false; sections := []; error := Some (error_message e);
     warnings := warnings |}.

(** The line loop: [for line_num, line in enumerate(lines, start=1)].
    Left: the failure it returns from; right: the final [sections]. *)
Fixpoint parse_lines (lines : list string) (line_num : Z)
    (seen_numbers : gset string) (sections : list string)
    : manifest_error + list string :=
  match lines with
  | [] => inr sections
  | raw :: rest =>
      let line := Str.strip raw in
      if Str.is_empty line then
        parse_lines rest (line_num + 1) seen_numbers sections
      else
        match SECTION_NAME_PATTERN_match line with
        | None => inl (InvalidSectionName line_num line)
        | Some (section_num, _) =>
            if decide (section_num ∈ seen_numbers) then
              inl (DuplicateSectionNumber line_num line section_num)
            else
              parse_lines rest (line_num + 1)
                ({[section_num]} ∪ seen_numbers) (sections ++ [line])
        end
  end.

(** [list.sort(key=...)]: a stable sort, keys compared with [<]. *)
Fixpoint insert_by {A : Type} (key : A -> Z) (x : A) (l : list A) : list A :=
  match l with
  | [] => [x]
  | y :: l' => if key x <? key y then x :: l else y :: insert_by key x l'
  end.

(** Elements are inserted from the left, each after the elements whose
    key is not greater: equal keys keep their order. *)
Definition sort_by {A : Type} (key : A -> Z) (l : list A) : list A :=
  fold_left (fun acc x => insert_by key x acc) l [].

Definition gap_message (expected_num actual_num : Z) : string :=
  Str.concat
    ["Section numbering gap: expected section-"; Str.fmt_02d expected_num;
     ", found section-"; Str.fmt_02d actual_num]%string.

(** The loop [for section in sections] that validates the numbering. *)
Fixpoint gap_loop (sections : list string) (expected_num : Z)
    (warnings : list string) : list string :=
  match sections with
  | [] => warnings
  | section :: rest =>
      let actual_num := section_number section in
      let warnings :=
        if negb (actual_num =? expected_num)
        then warnings ++ [gap_message expected_num actual_num]
        else warnings in
      gap_loop rest (actual_num + 1) warnings
  end.

(** [content[block_start:end_idx].strip()], or the failure of the
    marker search. *)
Definition find_block (content : string) : manifest_error + string :=
  match String.index 0 MANIFEST_START content with
  | None => inl NoManifestBlock
  | Some start_idx =>
      match String.index start_idx MANIFEST_END content with
      | None => inl UnclosedManifestBlock
      | Some end_idx =>
          let block_start := (start_idx + String.length MANIFEST_START)%nat in
          inr (Str.strip (Str.slice block_start end_idx content))
      end
  end.

Definition parse_manifest_block (content : string) : manifest_result :=
  let warnings : list string := [] in
  match find_block content with
  | inl e => failure warnings e
  | inr block_content =>
      if Str.is_empty block_content then failure warnings EmptyManifestBlock
      else
        match parse_lines (Str.split Str.newline block_content) 1 ∅ [] with
        | inl e => failure warnings e
        | inr [] => failure warnings NoValidSections
        | inr sections =>
            let sections := sort_by section_number sections in
            let warnings := gap_loop sections 1 warnings in
            {| success := true; sections := sections; error := None;
               warnings := warnings |}
        end
  end.

(** The dict returned by [check_index_format]. *)
Record index_format_t : Type := mk_index_format {
  if_exists : bool;
  has_manifest : bool;
  manifest_valid : bool;
  if_sections : list string;
  if_error : option string;
  if_warnings : list string;
}.

(** [index_path] is modelled by what is there: [None] when the path does
    not exist, [Some content] for a text file. *)
Definition check_index_format (index_path : option string) : index_format_t :=
  match index_path with
  | None =>
      {| if_exists := false; has_manifest := false; manifest_valid := false;
         if_sections := []; if_error := Some "index.md does not exist"%string;
         if_warnings := [] |}
  | Some content =>
      let has_manifest :=
        match String.index 0 MANIFEST_START content with
        | Some _ => true
        | None => false
        end in
      if negb has_manifest then
        {| if_exists := true; has_manifest := false; manifest_valid := false;
           if_sections := [];
           if_error := Some (Str.concat
             ["index.md is missing SECTION_MANIFEST block. ";
              "index.md must start with a SECTION_MANIFEST block. ";
              "See SKILL.md step 18 for the required format."]%string);
           if_warnings := [] |}
      else
        let result := parse_manifest_block content in
        {| if_exists := true; has_manifest := true;
           manifest_valid := success result;
           if_sections := sections result;
           if_error := error result;
           if_warnings := warnings result |}
  end.

(** What [planning_dir / "sections"] is on disk.  A directory is given by
    the names of its entries, in the order the directory is listed, and
    by the text of its [index.md] if there is one. *)
Inductive sections_path : Type :=
  | Missing
  | NotADirectory
  | Directory (names : list string) (index_md : option string).

Definition path_exists (p : sections_path) : bool :=
  match p with Missing => false | _ => true end.

Definition path_is_dir (p : sections_path) : bool :=
  match p with Directory _ _ => true | _ => false end.

Definition listing (p : sections_path) : list string :=
  match p with Directory names _ => names | _ => [] end.

(** [sections_dir / "index.md"] *)
Definition index_of (p : sections_path) : option string :=
  match p with Directory _ index_md => index_md | _ => None end.

Fixpoint ends_with (suffix s : string) : bool :=
  String.eqb s suffix
  || match s with
     | EmptyString => false
     | String _ s' => ends_with suffix s'
     end.

(** The glob pattern [section-*.md] on one name. *)
Definition glob_section_md (name : string) : bool :=
  match Str.strip_prefix "section-" name with
  | Some rest => ends_with ".md" rest
  | None => false
  end.

Fixpoint rfind_char (c : ascii) (s : string) : option nat :=
  match s with
  | EmptyString => None
  | String a s' =>
      match rfind_char c s' with
      | Some i => Some (S i)
      | None => if Ascii.eqb a c then Some 0%nat else None
      end
  end.

(** [PurePath.stem]: the name without its last suffix. *)
Definition stem (name : string) : string :=
  match rfind_char "." name with
  | Some i =>
      if Nat.ltb 0 i && Nat.ltb i (String.length name - 1)
      then String.substring 0 i name else name
  | None => name
  end.

(** [section-(\d+)] matched at the start of [s]: group 1. *)
Definition section_digits_here (s : string) : option string :=
  match Str.strip_prefix "section-" s with
  | Some rest =>
      let '(digits, _) := Str.span Str.is_digit rest in
      if Str.is_empty digits then None else Some digits
  | None => None
  end.

(** [re.search(r'section-(\d+)', s)]: group 1 of the leftmost match. *)
Fixpoint search_section_digits (s : string) : option string :=
  match section_digits_here s with
  | Some digits => Some digits
  | None =>
      match s with
      | EmptyString => None
      | String _ s' => search_section_digits s'
      end
  end.

(** The sort key of [get_completed_sections]; [None] is the
    [AttributeError] of [None.group(1)]. *)
Definition completed_key (x : string) : option Z :=
  Str.int <$> search_section_digits x.

Definition get_completed_sections (sections_dir : sections_path)
    : result (list string) :=
  if negb (path_exists sections_dir) then inr []
  else
    let completed := stem <$> filter (fun f => glob_section_md f = true)
                                     (listing sections_dir) in
    (* [sort] computes the key of every element before it compares *)
    if forallb (fun x => bool_decide (is_Some (completed_key x))) completed
    then inr (sort_by (fun x => default 0 (completed_key x)) completed)
    else inl AttributeError.

Inductive state_t : Type :=
  | fresh | has_index | partial | complete | invalid_index.

Definition state_name (s : state_t) : string :=
  match s with
  | fresh => "fresh" | has_index => "has_index" | partial => "partial"
  | complete => "complete" | invalid_index => "invalid_index"
  end%string.

(** The dict returned by [check_section_progress]. *)
Record section_progress : Type := mk_section_progress {
  state : state_t;
  index_exists : bool;
  defined_sections : list string;
  completed_sections : list string;
  missing_sections : list string;
  next_section : option string;
  progress : string;
  index_format : index_format_t;
}.

Definition nonempty {A : Type} (l : list A) : bool :=
  match l with [] => false | _ => true end.

Definition of_nat (n : nat) : string := Str.of_Z (Z.of_nat n).

(** [planning_dir] is given by its [sections] entry. *)
Definition check_section_progress (planning_dir : sections_path)
    : result section_progress :=
  let sections_dir := planning_dir in
  let index_path := index_of sections_dir in
  let sections_dir_exists := path_exists sections_dir && path_is_dir sections_dir in
  let index_exists := bool_decide (is_Some index_path) in
  let index_format :=
    if index_exists then check_index_format index_path
    else
      {| if_exists := false; has_manifest := false; manifest_valid := false;
         if_sections := []; if_error := None; if_warnings := [] |} in
  let defined_sections := if_sections index_format in
  match (if sections_dir_exists then get_completed_sections sections_dir
         else inr []) with
  | inl e => inl e
  | inr completed_sections =>
      let completed_set : gset string := list_to_set completed_sections in
      let missing_sections :=
        filter (fun s => s ∉ completed_set) defined_sections in
      let state :=
        if negb sections_dir_exists
           || (negb index_exists && negb (nonempty completed_sections))
        then fresh
        else if index_exists && negb (manifest_valid index_format)
        then invalid_index
        else if index_exists && negb (nonempty completed_sections)
        then has_index
        else if index_exists && nonempty missing_sections
        then partial
        else if index_exists && negb (nonempty missing_sections)
                && nonempty defined_sections
        then complete
        else fresh in
      let next_section := head missing_sections in
      let total := List.length defined_sections in
      let done := List.length completed_sections in
      let progress :=
        if Nat.ltb 0 total
        then Str.concat [of_nat done; "/"%string; of_nat total]
        else "0/0"%string in
      inr {| state := state; index_exists := index_exists;
             defined_sections := defined_sections;
             completed_sections := completed_sections;
             missing_sections := missing_sections;
             next_section := next_section;
             progress := progress;
             index_format := index_format |}
  end.

(** [parse_index_sections(index_path)], with [index_path] as for
    [check_index_format]. *)
Definition parse_index_sections (index_path : option string) : list string :=
  match index_path with
  | None => []
  | Some content =>
      let result := parse_manifest_block content in
      if success result then sections result else []
  end.

End Sections.

(** ** [infer_resume_step] of [scripts/checks/setup-planning-session.py] *)

Module Setup.
Import Sections.

(** The dict built by [scan_planning_files]. *)
Record files_t : Type := mk_files {
  research : bool;
  interview : bool;
  spec : bool;
  plan : bool;
  integration_notes : bool;
  plan_tdd : bool;
  reviews : list string;
  f_sections : list string;
  sections_index : bool;
}.

(** [str(x)] of an optional string inside an f-string. *)
Definition str_of_option (o : option string) : string :=
  match o with Some s => s | None => "None"%string end.

(** The result is [(resume_step, last_completed_description)]; the step
    [None] is Python's [None].  [pre_section_stages] is the code after the
    [if files["sections_index"]] block, reached when that block does not
    return. *)
Definition pre_section_stages (files : files_t) : option Z * string :=
  if nonempty (f_sections files) then
    (Some 18, "section files exist but no index"%string)
  else if plan_tdd files then (Some 17, "TDD plan complete"%string)
  else if integration_notes files then (Some 15, "feedback integrated"%string)
  else if nonempty (reviews files) then (Some 14, "external review complete"%string)
  else if plan files then (Some 12, "implementation plan complete"%string)
  else if spec files then (Some 11, "spec complete"%string)
  else if interview files then (Some 10, "interview complete"%string)
  else if research files then (Some 8, "research complete"%string)
  else (Some 6, "none"%string).

Definition infer_resume_step (files : files_t) (sp : section_progress)
    : option Z * string :=
  if sections_index files then
    match state sp with
    | complete => (None, "complete"%string)
    | partial | has_index =>
        (Some 19,
         Str.concat ["sections "%string; progress sp; ", next: "%string;
                     str_of_option (next_section sp)])
    | _ => pre_section_stages files
    end
  else pre_section_stages files.

(** The planning directory on disk: which of the six artifact files exist,
    the names in [reviews/] (in listing order) when it is a directory, and
    the [sections] entry. *)
Record planning_dir_t : Type := mk_planning_dir {
  claude_research_md : bool;
  claude_interview_md : bool;
  claude_spec_md : bool;
  claude_plan_md : bool;
  claude_integration_notes_md : bool;
  claude_plan_tdd_md : bool;
  reviews_dir : option (list string);
  sections_dir : sections_path;
}.

(** The glob pattern [*.md] on one name. *)
Definition glob_md (name : string) : bool := ends_with ".md" name.

Definition scan_planning_files (planning_dir : planning_dir_t) : files_t :=
  let reviews :=
    match reviews_dir planning_dir with
    | Some names => filter (fun f => glob_md f = true) names
    | None => []
    end in
  let sections_dir := sections_dir planning_dir in
  let sections :=
    if path_exists sections_dir
    then filter (fun f => glob_section_md f = true) (listing sections_dir)
    else [] in
  let sections_index :=
    if path_exists sections_dir
    then bool_decide (is_Some (index_of sections_dir))
    else false in
  {| research := claude_research_md planning_dir;
     interview := claude_interview_md planning_dir;
     spec := claude_spec_md planning_dir;
     plan := claude_plan_md planning_dir;
     integration_notes := claude_integration_notes_md planning_dir;
     plan_tdd := claude_plan_tdd_md planning_dir;
     reviews := reviews;
     f_sections := sections;
     sections_index := sections_index |}.

Definition build_files_summary (files : files_t) (sp : section_progress)
    : list string :=
  let summary : list string := [] in
  let summary :=
    if research files then summary ++ ["claude-research.md"%string] else summary in
  let summary :=
    if interview files then summary ++ ["claude-interview.md"%string] else summary in
  let summary :=
    if spec files then summary ++ ["claude-spec.md"%string] else summary in
  let summary :=
    if plan files then summary ++ ["claude-plan.md"%string] else summary in
  let summary :=
    if integration_notes files
    then summary ++ ["claude-integration-notes.md"%string] else summary in
  let summary :=
    if plan_tdd files then summary ++ ["claude-plan-tdd.md"%string] else summary in
  let summary :=
    if nonempty (reviews files)
    then summary ++ [Str.concat ["reviews/ ("%string;
                                 of_nat (List.length (reviews files));
                                 " files)"%string]]
    else summary in
  if nonempty (f_sections files) || sections_index files then
    match state sp with
    | complete =>
        summary ++ [Str.concat ["sections/ ("%string; progress sp;
                                " complete)"%string]]
    | st =>
        if sections_index files then
          summary ++ [Str.concat ["sections/ ("%string; progress sp; ", "%string;
                                  state_name st; ")"%string]]
        else
          summary ++ [Str.concat ["sections/ ("%string;
                                  of_nat (List.length (f_sections files));
                                  " files, no index)"%string]]
    end
  else summary.

End Setup.

(** ** [scripts/lib/todos.py] *)

Module Todos.

Inductive status_t : Type := pending | in_progress | completed.

(** A TODO dict: [content], [status], [activeForm]. *)
Record todo : Type := mk_todo {
  content : string;
  status : status_t;
  activeForm : string;
}.

(** [(content, activeForm, step_number)] *)
Definition TODO_ITEMS : list (string * string * Z) :=
  [ ("Check context / offer compaction", "Checking context", 0);
    ("Print intro and validate environment", "Validating environment", 1);
    ("Handle environment errors", "Handling environment errors", 2);
    ("Validate spec file input", "Validating spec file input", 3);
    ("Setup planning session", "Setting up planning session", 4);
    ("Research decision", "Deciding on research approach", 6);
    ("Execute research", "Executing research", 7);
    ("Detailed interview", "Conducting detailed interview", 8);
    ("Save interview transcript", "Saving interview transcript", 9);
    ("Write initial spec", "Writing initial spec", 10);
    ("Generate implementation plan", "Generating implementation plan", 11);
    ("Context check (pre-review)", "Checking context (pre-review)", 12);
    ("External LLM review", "Running external LLM review", 13);
    ("Integrate external feedback", "Integrating external feedback", 14);
    ("User review of integrated plan", "Waiting for user review", 15);
    ("Apply TDD approach", "Applying TDD approach", 16);
    ("Context check (pre-split)", "Checking context (pre-split)", 17);
    ("Create section index", "Creating section index", 18);
    ("Generate section TODOs", "Generating section TODOs", 19);
    ("Write section files", "Writing section files", 20);
    ("Final status and cleanup", "Finalizing status and cleanup", 21);
    ("Output summary", "Outputting summary", 22) ]%string.

Definition GENERATE_SECTION_TODOS_CONTENT : string := "Generate section TODOs"%string.
Definition WRITE_SECTIONS_CONTENT : string := "Write section files"%string.

(** Truthiness of an optional string: neither [None] nor empty. *)
Definition truthy (o : option string) : bool :=
  match o with Some s => negb (Str.is_empty s) | None => false end.

Definition context_item (key value : string) : todo :=
  {| content := Str.concat [key; "="%string; value];
     status := completed;
     activeForm := Str.concat ["Context: "%string; key] |}.

(** [str(b).lower()] *)
Definition lower_bool (b : bool) : string :=
  if b then "true"%string else "false"%string.

(** The four [if] statements that prepend the context items. *)
Definition context_items (plugin_root planning_dir initial_file : option string)
    (context_check_enabled : option bool) : list todo :=
  let todos : list todo := [] in
  let todos :=
    if truthy plugin_root
    then todos ++ [context_item "plugin_root" (default EmptyString plugin_root)]
    else todos in
  let todos :=
    if truthy planning_dir
    then todos ++ [context_item "planning_dir" (default EmptyString planning_dir)]
    else todos in
  let todos :=
    if truthy initial_file
    then todos ++ [context_item "initial_file" (default EmptyString initial_file)]
    else todos in
  match context_check_enabled with
  | Some b => todos ++ [context_item "context_check_enabled" (lower_bool b)]
  | None => todos
  end.

Definition step_status (step current_step : Z) : status_t :=
  if step <? current_step then completed
  else if step =? current_step then in_progress
  else pending.

(** The loop [for content, active_form, step in TODO_ITEMS]. *)
Fixpoint todos_loop (items : list (string * string * Z)) (current_step : Z)
    (section_todos : option (list todo)) (todos : list todo) : list todo :=
  match items with
  | [] => todos
  | (content, active_form, step) :: rest =>
      let append_entry :=
        todos ++ [ {| content := content;
                      status := step_status step current_step;
                      activeForm := active_form |} ] in
      match section_todos with
      | Some sts =>
          if String.eqb content GENERATE_SECTION_TODOS_CONTENT then
            todos_loop rest current_step section_todos todos
          else if String.eqb content WRITE_SECTIONS_CONTENT then
            todos_loop rest current_step section_todos (todos ++ sts)
          else todos_loop rest current_step section_todos append_entry
      | None => todos_loop rest current_step section_todos append_entry
      end
  end.

Definition generate_todos (current_step : Z) (section_todos : option (list todo))
    (plugin_root planning_dir initial_file : option string)
    (context_check_enabled : option bool) : list todo :=
  let todos :=
    context_items plugin_root planning_dir initial_file context_check_enabled in
  todos_loop TODO_ITEMS current_step section_todos todos.

Definition generate_section_todo_items (all_sections completed_sections : list string)
    : list todo :=
  let completed_set : gset string := list_to_set completed_sections in
  (fun section_name =>
     {| content := Str.concat ["Read section-splitting.md and write "%string; section_name];
        status := if decide (section_name ∈ completed_set) then completed else pending;
        activeForm := Str.concat ["Writing "%string; section_name] |})
  <$> all_sections.

Definition STEP_NAMES : gmap Z string :=
  list_to_map
    [ (0, "Context check");
      (1, "Print intro and validate environment");
      (2, "Handle environment errors");
      (3, "Validate spec file input");
      (4, "Setup planning session");
      (6, "Research decision");
      (7, "Execute research");
      (8, "Detailed interview");
      (9, "Save interview transcript");
      (10, "Write initial spec");
      (11, "Generate implementation plan");
      (12, "Context check (pre-review)");
      (13, "External LLM review");
      (14, "Integrate external feedback");
      (15, "User review of integrated plan");
      (16, "Apply TDD approach");
      (17, "Context check (pre-split)");
      (18, "Create section index");
      (19, "Generate section TODOs");
      (20, "Write section files");
      (21, "Final status and cleanup");
      (22, "Output summary") ]%string.

Definition GENERATE_SECTION_TODOS_STEP : Z := 19.
Definition WRITE_SECTIONS_STEP : Z := 20.

End Todos.

(** ** [main] of [scripts/checks/setup-planning-session.py], after the scan *)

Module SetupMain.
Import Sections Setup Todos.

Inductive mode_t : Type := mode_new | mode_resume | mode_complete.

Definition mode_name (m : mode_t) : string :=
  match m with
  | mode_new => "new" | mode_resume => "resume" | mode_complete => "complete"
  end%string.

(** What [main] computes once the spec file and the session config are
    accepted; these fields of the printed object are modelled. *)
Record session_t : Type := mk_session {
  mode : mode_t;
  resume_from_step : option Z;
  message : string;
  files_summary : list string;
  recommended_action : string;
  todos : list todo;
}.

(** [STEP_NAMES.get(resume_step, f"Step {resume_step}")] *)
Definition step_name (resume_step : Z) : string :=
  default (Str.concat ["Step "%string; Str.of_Z resume_step])
          (STEP_NAMES !! resume_step).

(** [main] from "Scan for existing planning files" on.  The arguments are
    what the code before has established: the planning directory on disk,
    [str(plugin_root)], [str(planning_dir)], [str(file_path)], whether
    [file_path] (still) exists, and the [context.check_enabled] entry of
    the session config, a boolean or null.  Left: the exception of
    [check_section_progress], which [main] does not catch. *)
Definition main_after_config (dir : planning_dir_t)
    (plugin_root planning_dir file_path : string) (file_path_exists : bool)
    (context_check_enabled : option bool) : result session_t :=
  let files_found := scan_planning_files dir in
  match check_section_progress (sections_dir dir) with
  | inl e => inl e
  | inr section_progress =>
      let '(resume_step, last_completed) :=
        infer_resume_step files_found section_progress in
      let files_summary := build_files_summary files_found section_progress in
      let mode :=
        match resume_step with
        | None => mode_complete
        | Some step =>
            if (step =? 6) && negb (nonempty files_summary)
            then mode_new else mode_resume
        end in
      let message :=
        match mode with
        | mode_resume =>
            (* [resume_step] is not [None] in this mode *)
            let shown := match resume_step with
                         | Some step => Str.of_Z step
                         | None => "None"%string
                         end in
            let name := match resume_step with
                        | Some step => step_name step
                        | None => "Step None"%string
                        end in
            Str.concat ["Resuming from step "%string; shown; " ("%string; name;
                        "). Last completed: "%string; last_completed]
        | mode_complete =>
            "Planning workflow complete - all sections written"%string
        | mode_new =>
            if negb file_path_exists then
              Str.concat ["Starting new session. Spec file will be created: "%string;
                          file_path]
            else
              Str.concat ["Starting new planning session in: "%string; planning_dir]
        end in
      let current_step := default 22 resume_step in
      let todos :=
        generate_todos current_step None (Some plugin_root) (Some planning_dir)
          (Some file_path) context_check_enabled in
      inr {| mode := mode; resume_from_step := resume_step; message := message;
             files_summary := files_summary;
             recommended_action :=
               match mode with
               | mode_new => "fresh"%string
               | m => mode_name m
               end;
             todos := todos |}
  end.

End SetupMain.

(** ** [scripts/checks/generate-section-todos.py] *)

Module GenerateSectionTodos.
Import Sections Todos.

(** The session config dict, as far as it is read: the three paths
    ([None] when the key is absent) and the [context] dict ([None] when
    absent) with its [check_enabled] entry ([None] when absent).  Values
    present have the types the config writer gives them. *)
Record session_config_t : Type := mk_session_config {
  cfg_plugin_root : option string;
  cfg_planning_dir : option string;
  cfg_initial_file : option string;
  cfg_context : option (option bool);
}.

(** [session_config.get("context", {}).get("check_enabled", True)] *)
Definition config_check_enabled (session_config : session_config_t) : bool :=
  match cfg_context session_config with
  | Some (Some b) => b
  | Some None => true
  | None => true
  end.

(** The dict returned by [generate_section_todos]. *)
Record section_todos_result : Type := mk_section_todos_result {
  st_success : bool;
  st_error : option string;
  st_todos : list todo;
  st_state : state_t;
  st_total_sections : nat;
  st_completed_sections : nat;
  st_missing_sections : list string;
}.

Definition generate_section_todos (planning_dir : sections_path)
    (session_config : session_config_t) : result section_todos_result :=
  let plugin_root := cfg_plugin_root session_config in
  let config_planning_dir := cfg_planning_dir session_config in
  let initial_file := cfg_initial_file session_config in
  let context_check_enabled := config_check_enabled session_config in
  match check_section_progress planning_dir with
  | inl e => inl e
  | inr progress =>
      let state := state progress in
      match state with
      | fresh =>
          inr {| st_success := false;
                 st_error := Some
                   "No sections/index.md found. Create the section index first (step 18)."%string;
                 st_todos := []; st_state := state; st_total_sections := 0;
                 st_completed_sections := 0; st_missing_sections := [] |}
      | invalid_index =>
          let index_format := index_format progress in
          (* the key "error" is always there; its value may be [None] *)
          let error_msg := Setup.str_of_option (if_error index_format) in
          inr {| st_success := false;
                 st_error := Some (Str.concat ["Invalid index.md: "%string; error_msg]);
                 st_todos := []; st_state := state; st_total_sections := 0;
                 st_completed_sections := 0; st_missing_sections := [] |}
      | complete =>
          let todos :=
            generate_todos GENERATE_SECTION_TODOS_STEP None plugin_root
              config_planning_dir initial_file (Some context_check_enabled) in
          inr {| st_success := true; st_error := None; st_todos := todos;
                 st_state := state;
                 st_total_sections := List.length (defined_sections progress);
                 st_completed_sections := List.length (completed_sections progress);
                 st_missing_sections := [] |}
      | _ =>
          let all_sections := defined_sections progress in
          let completed_sections := completed_sections progress in
          let section_todos :=
            generate_section_todo_items all_sections completed_sections in
          let todos :=
            generate_todos GENERATE_SECTION_TODOS_STEP (Some section_todos)
              plugin_root config_planning_dir initial_file
              (Some context_check_enabled) in
          inr {| st_success := true; st_error := None; st_todos := todos;
                 st_state := state;
                 st_total_sections := List.length all_sections;
                 st_completed_sections := List.length completed_sections;
                 st_missing_sections := missing_sections progress |}
      end
  end.

(** The exit status of the script's [main] once the config is loaded. *)
Definition exit_status (r : section_todos_result) : Z :=
  if st_success r then 0 else 1.

End GenerateSectionTodos.

(** * Vocabulary of the statements *)

(** Order of two elements by an integer key. *)
Definition key_le {A : Type} (key : A -> Z) (a b : A) : Prop := key a <= key b.

Module ManifestSpec.
Import Sections.

(** The lines the loop looks at: stripped, blank ones dropped. *)
Definition accepted_lines (lines : list string) : list string :=
  filter (fun l => Str.is_empty l = false) (Str.strip <$> lines).

Definition block_lines (block_content : string) : list string :=
  accepted_lines (Str.split Str.newline block_content).

(** A line is a section identifier [section-NN-name]. *)
Definition well_formed (x : string) : Prop :=
  is_Some (SECTION_NAME_PATTERN_match x).

(** Group 1 of the pattern: the two digits [NN]. *)
Definition group1 (x : string) : option string :=
  fst <$> SECTION_NAME_PATTERN_match x.


(** [sub in s] *)
Definition contains (sub s : string) : bool :=
  bool_decide (is_Some (String.index 0 sub s)).

(** The lines joined by newlines. *)
Fixpoint joined (lines : list string) : string :=
  match lines with
  | [] => EmptyString
  | [l] => l
  | l :: rest => l +:+ String Str.newline (joined rest)
  end.

(** An index document with the given lines between the two markers. *)
Definition document (lines : list string) : string :=
  Str.concat
    (["# Index"%string; String Str.newline EmptyString;
      MANIFEST_START; String Str.newline EmptyString]
     ++ flat_map (fun l => [l; String Str.newline EmptyString]) lines
     ++ [MANIFEST_END; String Str.newline EmptyString]).

End ManifestSpec.

Module ProgressSpec.
Import Sections.

(** Follows the specification's words: a name (extension stripped) of
    the form [section-<digits>-*]. *)
Definition spec_section_name (x : string) : bool :=
  match Str.strip_prefix "section-" x with
  | Some rest =>
      let '(digits, tail) := Str.span Str.is_digit rest in
      negb (Str.is_empty digits)
      && match tail with
         | String dash _ => Ascii.eqb dash "-"
         | EmptyString => false
         end
  | None => false
  end.

(** The sort key the code uses, as a total function. *)
Definition completed_number (x : string) : Z := default 0 (completed_key x).


(** The state refinement for a valid index as the specification words
    it, at one planning directory, with N the number of defined and k the
    number of completed sections. *)
Definition refines_as_specified (pd : sections_path) : Prop :=
  forall r, check_section_progress pd = inr r ->
    manifest_valid (index_format r) = true ->
    let N := List.length (defined_sections r) in
    let k := List.length (completed_sections r) in
    (k <= N)%nat ->
    (k = 0%nat -> state r = has_index)
    /\ (state r = partial <-> (1 <= k /\ k <= N - 1)%nat)
    /\ (state r = complete <-> missing_sections r = [] /\ (1 <= N)%nat)
    /\ progress r = (if Nat.ltb 0 N
                     then Str.concat [of_nat k; "/"%string; of_nat N]
                     else "0/0"%string).

(** A sections directory with an index of two sections, the file of the
    first one, and one more section file that the index does not define. *)
Definition stray_file_dir : sections_path :=
  Directory ["index.md"; "section-01-a.md"; "section-03-c.md"]%string
    (Some (ManifestSpec.document ["section-01-a"; "section-02-b"]%string)).

(** The same index with the file of the first section only. *)
Definition one_of_two_dir : sections_path :=
  Directory ["index.md"; "section-01-a.md"]%string
    (Some (ManifestSpec.document ["section-01-a"; "section-02-b"]%string)).

(** [name] is a file the glob finds whose stem has no [section-<digits>]. *)
Definition digitless (name : string) : Prop :=
  glob_section_md name = true /\ completed_key (stem name) = None.

End ProgressSpec.

Module StepSpec.
Import Sections Setup.

#[global] Instance state_eq_dec : EqDecision state_t.
Proof. solve_decision. Defined.





(** A sections directory whose index has no manifest block, with one
    section file; what [scan_planning_files] reports for it and what
    [check_section_progress] returns. *)
Definition invalid_index_dir : sections_path :=
  Directory ["index.md"; "section-01-a.md"]%string (Some "# Index"%string).


Definition invalid_index_progress : section_progress :=
  {| state := invalid_index; index_exists := true; defined_sections := [];
     completed_sections := ["section-01-a"%string]; missing_sections := [];
     next_section := None; progress := "0/0"%string;
     index_format := check_index_format (Some "# Index"%string) |}.

(** Only a plan and an interview transcript exist. *)
Definition plan_and_interview : files_t :=
  {| research := false; interview := true; spec := false; plan := true;
     integration_notes := false; plan_tdd := false; reviews := [];
     f_sections := []; sections_index := false |}.

End StepSpec.

Module TodoSpec.
Import Todos.

#[global] Instance status_eq_dec : EqDecision status_t.
Proof. solve_decision. Defined.

(** The item a step-table entry is rendered to. *)
Definition entry (current_step : Z) (item : string * string * Z) : todo :=
  {| content := item.1.1;
     status := step_status item.2 current_step;
     activeForm := item.1.2 |}.

Definition is_sentinel (t : todo) : Prop :=
  content t = GENERATE_SECTION_TODOS_CONTENT \/ content t = WRITE_SECTIONS_CONTENT.

Definition count_status (st : status_t) (l : list todo) : nat :=
  List.length (filter (fun t => status t = st) l).



End TodoSpec.

Module ExtraSpec.
Import Sections.

(** [c in s] for one character. *)
Fixpoint has_char (c : ascii) (s : string) : bool :=
  match s with
  | EmptyString => false
  | String a s' => Ascii.eqb a c || has_char c s'
  end.

(** The content of the TODO item of a section. *)
Definition section_todo_content (section_name : string) : string :=
  Str.concat ["Read section-splitting.md and write "%string; section_name].

(** The file of a section in the sections directory. *)
Definition section_file (section_name : string) : string :=
  section_name +:+ ".md".

(** The steps of the step table. *)
Definition table_steps : list Z := (fun item => item.2) <$> Todos.TODO_ITEMS.

(** Nothing of a planning session is on disk. *)
Definition nothing_found (files : Setup.files_t) : Prop :=
  Setup.research files = false /\ Setup.interview files = false
  /\ Setup.spec files = false /\ Setup.plan files = false
  /\ Setup.integration_notes files = false /\ Setup.plan_tdd files = false
  /\ Setup.reviews files = [] /\ Setup.f_sections files = []
  /\ Setup.sections_index files = false.

(** A planning directory with a plan and an interview transcript, and a
    sections directory whose index has no manifest block. *)
Definition example_planning_dir : Setup.planning_dir_t :=
  Setup.mk_planning_dir false true false true false false None
    (Directory ["index.md"; "section-01-a.md"]%string (Some "# Index"%string)).

(** A planning directory in which only an index without a manifest block
    exists. *)
Definition only_invalid_index_dir : Setup.planning_dir_t :=
  Setup.mk_planning_dir false false false false false false None
    (Directory ["index.md"%string] (Some "# Index"%string)).

End ExtraSpec.

(** * Properties *)

(** ** Strings *)

Module StrFacts.
Import Str.

Lemma is_empty_true (s : string) : is_empty s = true <-> s = EmptyString.
Proof. destruct s; simpl; split; congruence. Qed.

Lemma is_empty_false (s : string) : is_empty s = false <-> s <> EmptyString.
Proof. destruct s; simpl; split; congruence. Qed.

(** What [lstrip] leaves starts with a character that is not a space. *)
Lemma lstrip_head (s : string) (c : ascii) (t : string) :
  lstrip s = String c t -> is_space c = false.
Proof.
  induction s as [|a s IH]; simpl; [discriminate|].
  destruct (is_space a) eqn:Ha; [exact IH|].
  intros [= <- _]. exact Ha.
Qed.

Lemma rstrip_head (s : string) (c : ascii) (t : string) :
  rstrip s = String c t -> exists t', s = String c t'.
Proof.
  destruct s as [|a s]; simpl; [discriminate|].
  destruct (is_space a && is_empty (rstrip s)); [discriminate|].
  intros [= <- _]. eauto.
Qed.

Lemma strip_head (s : string) (c : ascii) (t : string) :
  strip s = String c t -> is_space c = false.
Proof.
  unfold strip. intros H. apply rstrip_head in H as [t' H].
  eapply lstrip_head, H.
Qed.

(** A string that starts with a non-space character does not strip to
    the empty string. *)
Lemma strip_nonspace_head (c : ascii) (t : string) :
  is_space c = false -> exists t', strip (String c t) = String c t'.
Proof.
  intros Hc. unfold strip. simpl. rewrite Hc. simpl. rewrite Hc. simpl. eauto.
Qed.

Lemma newline_is_space : is_space newline = true.
Proof. reflexivity. Qed.

(** The first line of a text that starts with a non-space character
    starts with that character. *)
Lemma split_head (c : ascii) (t : string) :
  is_space c = false ->
  exists l ls, split newline (String c t) = String c l :: ls.
Proof.
  intros Hc. unfold split. simpl.
  destruct (split_aux newline t) as [l ls].
  destruct (Ascii.eqb c newline) eqn:E.
  - apply Ascii.eqb_eq in E. subst c. rewrite newline_is_space in Hc. discriminate.
  - eauto.
Qed.

End StrFacts.

(** ** The stable sort *)

Section SortBy.
Context {A : Type} (key : A -> Z).

Lemma insert_by_perm (x : A) (l : list A) :
  Sections.insert_by key x l ≡ₚ x :: l.
Proof.
  induction l as [|y l IH]; simpl; [done|].
  destruct (key x <? key y); [done|].
  rewrite IH. apply Permutation_swap.
Qed.

Lemma insert_by_sorted (x : A) (l : list A) :
  StronglySorted (key_le key) l -> StronglySorted (key_le key) (Sections.insert_by key x l).
Proof.
  induction 1 as [|y l Hl IH Hy]; simpl.
  - repeat constructor.
  - destruct (key x <? key y) eqn:E.
    + apply Z.ltb_lt in E. constructor; [by constructor|].
      constructor; [unfold key_le; lia|].
      eapply Forall_impl; [exact Hy|]. unfold key_le. intros; lia.
    + apply Z.ltb_ge in E. constructor; [exact IH|].
      rewrite insert_by_perm. constructor; [exact E | exact Hy].
Qed.

Lemma fold_insert_perm (l acc : list A) :
  fold_left (fun acc x => Sections.insert_by key x acc) l acc ≡ₚ acc ++ l.
Proof.
  revert acc. induction l as [|x l IH]; intros acc; simpl.
  - by rewrite app_nil_r.
  - rewrite IH, insert_by_perm. simpl. apply Permutation_middle.
Qed.

Lemma fold_insert_sorted (l acc : list A) :
  StronglySorted (key_le key) acc ->
  StronglySorted (key_le key) (fold_left (fun acc x => Sections.insert_by key x acc) l acc).
Proof.
  revert acc. induction l as [|x l IH]; intros acc Hacc; simpl; [done|].
  apply IH, insert_by_sorted, Hacc.
Qed.

Lemma sort_by_perm (l : list A) : Sections.sort_by key l ≡ₚ l.
Proof. unfold Sections.sort_by. by rewrite fold_insert_perm. Qed.

Lemma sort_by_sorted (l : list A) : StronglySorted (key_le key) (Sections.sort_by key l).
Proof. apply fold_insert_sorted. constructor. Qed.



End SortBy.

(** ** The manifest parser *)

Module ManifestFacts.
Import Sections ManifestSpec.

Lemma accepted_lines_cons (raw : string) (rest : list string) :
  accepted_lines (raw :: rest) =
    if Str.is_empty (Str.strip raw) then accepted_lines rest
    else Str.strip raw :: accepted_lines rest.
Proof.
  unfold accepted_lines. rewrite fmap_cons, filter_cons.
  destruct (Str.is_empty (Str.strip raw)) eqn:E; by case_decide.
Qed.

Lemma group1_match (x g nm : string) :
  SECTION_NAME_PATTERN_match x = Some (g, nm) -> group1 x = Some g.
Proof. unfold group1. by intros ->. Qed.

(** The loop returns normally only with [sections] extended by the lines
    it looked at, all of them identifiers with pairwise different
    numbers, none seen before. *)
Lemma parse_lines_sound (lines : list string) :
  forall (n : Z) (seen : gset string) (secs out : list string),
    parse_lines lines n seen secs = inr out ->
    out = secs ++ accepted_lines lines
    /\ Forall well_formed (accepted_lines lines)
    /\ NoDup (group1 <$> accepted_lines lines)
    /\ (forall g, Some g ∈ group1 <$> accepted_lines lines -> g ∉ seen).
Proof.
  induction lines as [|raw rest IH]; intros n seen secs out; simpl.
  - intros [= <-]. rewrite app_nil_r. repeat split; try constructor.
    intros g Hg. by apply elem_of_nil in Hg.
  - rewrite accepted_lines_cons.
    destruct (Str.is_empty (Str.strip raw)) eqn:E; [apply IH|].
    destruct (SECTION_NAME_PATTERN_match (Str.strip raw)) as [[g nm]|] eqn:M;
      [|discriminate].
    case_decide as Hseen; [discriminate|].
    intros H. apply IH in H as (-> & Hwf & Hnd & Hfresh).
    pose proof (group1_match _ _ _ M) as G.
    repeat split.
    + by rewrite <- app_assoc.
    + constructor; [|exact Hwf]. unfold well_formed. rewrite M. eauto.
    + rewrite fmap_cons, G. constructor; [|exact Hnd].
      intros Hin. apply Hfresh in Hin. apply Hin, elem_of_union. left.
      by apply elem_of_singleton.
    + intros g' Hg'. rewrite fmap_cons, G in Hg'.
      apply elem_of_cons in Hg' as [[= ->]|Hg']; [exact Hseen|].
      apply Hfresh in Hg'. intros Hs. apply Hg', elem_of_union. by right.
Qed.

(** Conversely, identifiers with pairwise different, unseen numbers are
    all accepted. *)
Lemma parse_lines_complete (lines : list string) :
  forall (n : Z) (seen : gset string) (secs : list string),
    Forall well_formed (accepted_lines lines) ->
    NoDup (group1 <$> accepted_lines lines) ->
    (forall g, Some g ∈ group1 <$> accepted_lines lines -> g ∉ seen) ->
    parse_lines lines n seen secs = inr (secs ++ accepted_lines lines).
Proof.
  induction lines as [|raw rest IH]; intros n seen secs; simpl.
  - intros _ _ _. by rewrite app_nil_r.
  - rewrite accepted_lines_cons.
    destruct (Str.is_empty (Str.strip raw)) eqn:E; [apply IH|].
    intros Hwf Hnd Hfresh.
    apply Forall_cons in Hwf as [[[g nm] M] Hwf].
    rewrite M. pose proof (group1_match _ _ _ M) as G.
    rewrite fmap_cons, G in Hnd, Hfresh.
    apply NoDup_cons in Hnd as [Hng Hnd].
    case_decide as Hseen.
    { exfalso. eapply Hfresh; [|exact Hseen]. apply elem_of_cons. by left. }
    rewrite IH; [by rewrite <- app_assoc| done | done |].
    intros g' Hg'. apply not_elem_of_union. split.
    + apply not_elem_of_singleton. intros ->. by apply Hng.
    + apply Hfresh. apply elem_of_cons. by right.
Qed.

(** Whatever the loop had accepted stays in front of its result. *)
Lemma parse_lines_nonempty (lines : list string) (n : Z) (seen : gset string)
    (secs : list string) :
  secs <> [] -> parse_lines lines n seen secs <> inr [].
Proof.
  intros Hne H. apply parse_lines_sound in H as (H & _).
  destruct secs; [done|discriminate].
Qed.

(** *** Section numbers *)

Lemma digit_val_range (c : ascii) :
  Str.is_digit c = true -> 0 <= Str.digit_val c <= 9.
Proof.
  unfold Str.is_digit, Str.in_range, Str.digit_val.
  intros H. apply andb_true_iff in H as [H1 H2].
  apply Nat.leb_le in H1, H2. lia.
Qed.


(** Group 1 of a match is two decimal digits. *)
Lemma match_two_digits (x g nm : string) :
  SECTION_NAME_PATTERN_match x = Some (g, nm) ->
  exists d1 d2, g = String d1 (String d2 EmptyString)
                /\ Str.is_digit d1 = true /\ Str.is_digit d2 = true.
Proof.
  unfold SECTION_NAME_PATTERN_match.
  destruct (Str.strip_prefix _ x) as [[|d1 [|d2 [|dash rest]]]|]; try discriminate.
  destruct (Str.is_digit d1) eqn:D1; [|discriminate].
  destruct (Str.is_digit d2) eqn:D2; [|discriminate].
  destruct (Ascii.eqb dash "-"); [|discriminate]. simpl.
  destruct (Str.span is_name_char rest) as [name tail].
  destruct (_ && _); [|discriminate].
  intros [= <- _]. eauto.
Qed.

Lemma section_number_range (x : string) :
  well_formed x -> 0 <= section_number x <= 99.
Proof.
  intros [[g nm] M]. unfold section_number. rewrite M.
  apply match_two_digits in M as (d1 & d2 & -> & D1 & D2).
  apply digit_val_range in D1, D2. unfold Str.int. simpl. lia.
Qed.



(** *** The gap loop *)

Lemma gap_loop_app (l : list string) (e : Z) (ws : list string) :
  gap_loop l e ws = ws ++ gap_loop l e [].
Proof.
  revert e ws. induction l as [|x l IH]; intros e ws; simpl.
  - by rewrite app_nil_r.
  - destruct (negb (section_number x =? e)); simpl.
    + rewrite IH. rewrite (IH _ [_]). by rewrite <- app_assoc.
    + apply IH.
Qed.

Lemma gaps_cons_aux (e n : Z) (rest : list Z) :
  filter (fun p : Z * Z => p.1 <> p.2)
         (zip (e :: Z.succ n :: (Z.succ <$> rest)) (n :: rest)) =
  (if negb (n =? e) then [(e, n)] else [])
    ++ filter (fun p : Z * Z => p.1 <> p.2) (zip (n + 1 :: (Z.succ <$> rest)) rest).
Proof.
  simpl. rewrite filter_cons. simpl.
  destruct (n =? e) eqn:E; simpl.
  - apply Z.eqb_eq in E. case_decide; [lia|]. done.
  - apply Z.eqb_neq in E. case_decide; [|lia]. done.
Qed.

(** The warnings of the loop are one message per gap, in order. *)
Lemma gap_loop_gaps (l : list string) (e : Z) :
  gap_loop l e [] =
    (fun p => gap_message p.1 p.2)
      <$> filter (fun p : Z * Z => p.1 <> p.2)
                 (zip (e :: (Z.succ <$> (section_number <$> l))) (section_number <$> l)).
Proof.
  revert e. induction l as [|x l IH]; intros e; [done|].
  cbn [gap_loop]. rewrite !fmap_cons, gaps_cons_aux, fmap_app, <- IH.
  destruct (negb (section_number x =? e)); simpl.
  - by rewrite gap_loop_app.
  - done.
Qed.

End ManifestFacts.

(** ** Claims about [parse_manifest_block] *)

Module ManifestClaims.
Import Sections ManifestSpec ManifestFacts.

Lemma parse_lines_errors (lines : list string) :
  forall (n : Z) (seen : gset string) (secs : list string) (e : manifest_error),
    parse_lines lines n seen secs = inl e ->
    (exists k l, e = InvalidSectionName k l)
    \/ (exists k l g, e = DuplicateSectionNumber k l g).
Proof.
  induction lines as [|raw rest IH]; intros n seen secs e; simpl; [discriminate|].
  destruct (Str.is_empty (Str.strip raw)); [apply IH|].
  destruct (SECTION_NAME_PATTERN_match (Str.strip raw)) as [[g nm]|].
  - case_decide; [|apply IH]. intros [= <-]. right. eauto.
  - intros [= <-]. left. eauto.
Qed.

(** A stripped, non-empty block makes the loop fail or accept a line. *)
Lemma parse_lines_of_block (raw : string) :
  Str.is_empty (Str.strip raw) = false ->
  parse_lines (Str.split Str.newline (Str.strip raw)) 1 ∅ [] <> inr [].
Proof.
  intros Hne. destruct (Str.strip raw) as [|c t] eqn:E; [discriminate|].
  pose proof (StrFacts.strip_head _ _ _ E) as Hc.
  destruct (StrFacts.split_head c t Hc) as (l & ls & ->).
  destruct (StrFacts.strip_nonspace_head c l Hc) as (l' & Hl).
  simpl. rewrite Hl. simpl.
  destruct (SECTION_NAME_PATTERN_match (String c l')) as [[g nm]|]; [|discriminate].
  case_decide; [discriminate|].
  by apply parse_lines_nonempty.
Qed.

(** What a successful parse went through. *)
Lemma parse_success (content : string) :
  success (parse_manifest_block content) = true ->
  exists block,
    find_block content = inr block
    /\ parse_lines (Str.split Str.newline block) 1 ∅ [] = inr (block_lines block)
    /\ block_lines block <> []
    /\ sections (parse_manifest_block content)
        = sort_by section_number (block_lines block)
    /\ warnings (parse_manifest_block content)
        = gap_loop (sections (parse_manifest_block content)) 1 []
    /\ error (parse_manifest_block content) = None.
Proof.
  unfold parse_manifest_block.
  destruct (find_block content) as [e|block]; [discriminate|].
  destruct (Str.is_empty block); [discriminate|].
  destruct (parse_lines _ 1 ∅ []) as [e|secs] eqn:P; [discriminate|].
  pose proof (parse_lines_sound _ _ _ _ _ P) as (Hs & _). simpl in Hs.
  fold (block_lines block) in Hs. subst secs.
  destruct (block_lines block) as [|x l] eqn:B; [discriminate|].
  intros _. exists block. rewrite B. by repeat split.
Qed.

(** C10: a parse that fails returns no warnings and no sections. *)
Theorem failure_carries_nothing (content : string) :
  success (parse_manifest_block content) = false ->
  warnings (parse_manifest_block content) = []
  /\ sections (parse_manifest_block content) = [].
Proof.
  unfold parse_manifest_block.
  destruct (find_block content) as [e|block]; [done|].
  destruct (Str.is_empty block); [done|].
  destruct (parse_lines _ 1 ∅ []) as [e|[|x l]]; [done|done|discriminate].
Qed.

Lemma failure_carries_nothing_witness :
  warnings (parse_manifest_block (document ["section-01-a"; "section-01-b"]%string)) = []
  /\ sections (parse_manifest_block (document ["section-01-a"; "section-01-b"]%string)) = [].
Proof. apply failure_carries_nothing. vm_compute. reflexivity. Defined.

(** C9: the exit "No valid sections found in SECTION_MANIFEST block" is
    never taken: no text is answered with that error, because on a
    stripped non-empty block the line loop returns an invalid-name or a
    duplicate-number failure, or ends with at least one section. *)
Theorem no_valid_sections_unreachable (content : string) :
  error (parse_manifest_block content) <> Some (error_message NoValidSections)
  /\ forall raw : string,
      Str.is_empty (Str.strip raw) = false ->
      match parse_lines (Str.split Str.newline (Str.strip raw)) 1 ∅ [] with
      | inl (InvalidSectionName _ _) | inl (DuplicateSectionNumber _ _ _) => True
      | inl _ => False
      | inr accepted => accepted <> []
      end.
Proof.
  assert (forall raw : string,
      Str.is_empty (Str.strip raw) = false ->
      match parse_lines (Str.split Str.newline (Str.strip raw)) 1 ∅ [] with
      | inl (InvalidSectionName _ _) | inl (DuplicateSectionNumber _ _ _) => True
      | inl _ => False
      | inr accepted => accepted <> []
      end) as Hloop.
  { intros raw Hne. pose proof (parse_lines_of_block raw Hne) as H.
    destruct (parse_lines _ 1 ∅ []) as [e|secs] eqn:P.
    - apply parse_lines_errors in P as [(k & l & ->)|(k & l & g & ->)]; exact I.
    - intros ->. by apply H. }
  split; [|exact Hloop].
  unfold parse_manifest_block, find_block.
  destruct (String.index 0 MANIFEST_START content) as [start_idx|];
    [|vm_compute; discriminate].
  destruct (String.index start_idx MANIFEST_END content) as [end_idx|];
    [|vm_compute; discriminate].
  set (raw := Str.slice _ _ _).
  destruct (Str.is_empty (Str.strip raw)) eqn:Hne; [vm_compute; discriminate|].
  specialize (Hloop raw Hne).
  destruct (parse_lines _ 1 ∅ []) as [e|[|x l]]; [| done | discriminate].
  destruct e; try done; cbn; discriminate.
Qed.



(** The two examples of the specification. *)
Example sorted_03_01_02 :
  sections (parse_manifest_block
    (document ["section-03-third"; "section-01-first"; "section-02-second"]%string))
  = ["section-01-first"; "section-02-second"; "section-03-third"]%string.
Proof. vm_compute. reflexivity. Qed.

Example sorted_numeric_not_lexical :
  sections (parse_manifest_block (document ["section-10-bbb"; "section-02-zzz"]%string))
  = ["section-02-zzz"; "section-10-bbb"]%string.
Proof. vm_compute. reflexivity. Qed.



(** The example of the specification: numbers 01, 03, 05. *)
Example gaps_01_03_05 :
  let r := parse_manifest_block
             (document ["section-01-a"; "section-03-b"; "section-05-c"]%string) in
  success r = true
  /\ warnings r =
       ["Section numbering gap: expected section-02, found section-03";
        "Section numbering gap: expected section-04, found section-05"]%string
  /\ forallb (contains "gap") (warnings r) = true.
Proof. vm_compute. repeat split. Qed.

End ManifestClaims.

(** ** Section discovery and section progress *)

Module ProgressFacts.
Import Sections ProgressSpec.

Lemma strip_prefix_app (p base rest t : string) :
  Str.strip_prefix p base = Some rest ->
  Str.strip_prefix p (base +:+ t) = Some (rest +:+ t).
Proof.
  revert base. induction p as [|a p IH]; intros base; simpl.
  - by intros [= ->].
  - destruct base as [|b base]; [discriminate|]. simpl.
    destruct (Ascii.eqb a b); [apply IH|discriminate].
Qed.

Lemma ends_with_app (suffix r : string) : ends_with suffix (r +:+ suffix) = true.
Proof.
  induction r as [|a r IH]; simpl.
  - destruct suffix; simpl; [done|]. by rewrite Ascii.eqb_refl, String.eqb_refl.
  - rewrite IH. apply orb_true_r.
Qed.

Lemma rfind_dot_md (base : string) :
  rfind_char "." (base +:+ ".md") = Some (String.length base).
Proof. induction base as [|a base IH]; simpl; [done|]. by rewrite IH. Qed.

Lemma substring_prefix (base t : string) :
  String.substring 0 (String.length base) (base +:+ t) = base.
Proof.
  induction base as [|a base IH]; simpl.
  - by destruct t.
  - by rewrite IH.
Qed.

Lemma string_length_app (a b : string) :
  String.length (a +:+ b) = (String.length a + String.length b)%nat.
Proof. induction a as [|c a IH]; simpl; [done|]. by rewrite IH. Qed.

(** The stem of [base.md] is [base]. *)
Lemma stem_md (base : string) : base <> EmptyString -> stem (base +:+ ".md") = base.
Proof.
  intros Hne. unfold stem. rewrite rfind_dot_md, string_length_app. simpl.
  destruct base as [|a base]; [done|].
  replace (Nat.ltb 0 (String.length (String a base))) with true by done.
  replace (Nat.ltb _ _) with true.
  - simpl. f_equal. apply substring_prefix.
  - symmetry. apply Nat.ltb_lt. simpl. lia.
Qed.


Lemma search_unfold (s : string) :
  search_section_digits s =
    match section_digits_here s with
    | Some digits => Some digits
    | None =>
        match s with
        | EmptyString => None
        | String _ s' => search_section_digits s'
        end
    end.
Proof. by destruct s. Qed.

(** A name of the specified form has a number the code can extract. *)
Lemma spec_name_has_key (x : string) :
  spec_section_name x = true -> is_Some (completed_key x).
Proof.
  unfold spec_section_name, completed_key.
  destruct (Str.strip_prefix "section-" x) as [rest|] eqn:P; [|discriminate].
  destruct (Str.span Str.is_digit rest) as [digits tail] eqn:Sp.
  intros H. apply andb_true_iff in H as [Hd _].
  assert (section_digits_here x = Some digits) as Hh.
  { unfold section_digits_here. rewrite P, Sp.
    by destruct (Str.is_empty digits). }
  rewrite search_unfold, Hh. simpl. eauto.
Qed.


Lemma ends_with_inv (suffix s : string) :
  ends_with suffix s = true -> exists r, s = r +:+ suffix.
Proof.
  induction s as [|a s IH]; cbn [ends_with].
  - rewrite orb_false_r. intros H. exists EmptyString.
    by apply String.eqb_eq in H.
  - intros H. apply orb_true_iff in H as [H|H].
    + apply String.eqb_eq in H. by exists EmptyString.
    + destruct (IH H) as [r ->]. by exists (String a r).
Qed.

Lemma strip_prefix_inv (p s rest : string) :
  Str.strip_prefix p s = Some rest -> s = p +:+ rest.
Proof.
  revert s. induction p as [|a p IH]; intros s; simpl.
  - by intros [= ->].
  - destruct s as [|b s]; [discriminate|].
    destruct (Ascii.eqb_spec a b) as [->|]; [|discriminate].
    intros H. by rewrite (IH _ H).
Qed.

(** A name found by the glob is a non-empty stem followed by [.md]. *)
Lemma glob_inv (name : string) :
  glob_section_md name = true ->
  exists base, name = base +:+ ".md" /\ stem name = base.
Proof.
  unfold glob_section_md.
  destruct (Str.strip_prefix "section-" name) as [rest|] eqn:P; [|discriminate].
  intros H. apply ends_with_inv in H as [r ->].
  apply strip_prefix_inv in P. subst name.
  exists ("section-" +:+ r). split; [done|].
  by rewrite <- (stem_md ("section-" +:+ r)).
Qed.

(** Different files found by the glob have different stems. *)
Lemma completed_NoDup (d : sections_path) (l : list string) :
  NoDup (listing d) -> get_completed_sections d = inr l -> NoDup l.
Proof.
  unfold get_completed_sections. intros Hnd.
  destruct (path_exists d); simpl; [|intros [= <-]; constructor].
  destruct (forallb _ _); [|discriminate]. intros [= <-].
  rewrite sort_by_perm.
  apply NoDup_fmap_2_strong; [|by apply NoDup_filter].
  intros x y Hx Hy E.
  apply list_elem_of_filter in Hx as [Hx _], Hy as [Hy _].
  apply glob_inv in Hx as (bx & -> & Ex), Hy as (by' & -> & Ey).
  congruence.
Qed.

Lemma forallb_keys (l : list string) :
  forallb (fun x => bool_decide (is_Some (completed_key x))) l = true <->
  Forall (fun x => is_Some (completed_key x)) l.
Proof.
  rewrite forallb_forall, Forall_forall. split; intros H x Hx.
  - apply list_elem_of_In in Hx. apply H in Hx. by apply bool_decide_eq_true in Hx.
  - apply list_elem_of_In in Hx. apply bool_decide_eq_true. by apply H.
Qed.

(** [get_completed_sections] raises exactly when the glob finds a file
    whose stem has no [section-<digits>]. *)
Lemma get_completed_sections_raises (d : sections_path) :
  get_completed_sections d = inl AttributeError <->
  exists name, name ∈ listing d /\ digitless name.
Proof.
  unfold get_completed_sections, digitless.
  destruct (path_exists d) eqn:Ex; simpl.
  - destruct (forallb _ _) eqn:F.
    + split; [discriminate|]. intros (name & Hin & Hg & Hk).
      apply forallb_keys in F. rewrite Forall_forall in F.
      assert (is_Some (completed_key (stem name))) as [z Hz].
      { apply F. apply list_elem_of_fmap. exists name. split; [done|].
        by apply list_elem_of_filter. }
      congruence.
    + split; [|done]. intros _.
      apply not_true_iff_false in F. rewrite forallb_keys in F.
      apply not_Forall_Exists in F; [|apply _].
      apply Exists_exists in F as (x & Hx & Hn).
      apply list_elem_of_fmap in Hx as (name & -> & Hname).
      apply list_elem_of_filter in Hname as [Hg Hin].
      exists name. repeat split; try done.
      unfold compose in Hn.
      destruct (completed_key (stem name)) eqn:K; [|done]. destruct Hn. eauto.
  - split; [discriminate|]. intros (name & Hin & _).
    destruct d; try discriminate. by apply elem_of_nil in Hin.
Qed.

End ProgressFacts.

Module ProgressClaims.
Import Sections ManifestSpec ManifestFacts ProgressSpec ProgressFacts.

(** C1: [check_section_progress] raises when the sections directory
    holds a file that the glob [section-*.md] finds and whose stem has no
    digit after [section-]: here a directory with the single file
    [section-abc.md] and no index. *)
Theorem check_section_progress_raises :
  check_section_progress (Directory ["section-abc.md"%string] None)
  = inl AttributeError.
Proof. vm_compute. reflexivity. Qed.

(** The check raises in exactly these directories. *)
Lemma check_section_progress_raises_iff (pd : sections_path) (e : exn) :
  check_section_progress pd = inl e <->
  exists name, name ∈ listing pd /\ digitless name.
Proof.
  rewrite <- get_completed_sections_raises. destruct e.
  unfold check_section_progress.
  destruct pd as [| |names index_md]; simpl; try done.
  by destruct (get_completed_sections _) as [[]|l].
Qed.

(** Without such a file it returns a record. *)
Lemma check_section_progress_returns (pd : sections_path) :
  (forall name, name ∈ listing pd -> ~ digitless name) ->
  exists r, check_section_progress pd = inr r.
Proof.
  intros H. destruct (check_section_progress pd) as [e|r] eqn:E; [|eauto].
  apply check_section_progress_raises_iff in E as (name & Hin & Hd).
  by destruct (H name Hin).
Qed.




Example completed_sections_widths :
  get_completed_sections
    (Directory ["section-10-x.md"; "section-2-y.md"; "section-003-z.md"]%string None)
  = inr ["section-2-y"; "section-003-z"; "section-10-x"]%string.
Proof. vm_compute. reflexivity. Qed.

(** *** The state for a valid index *)

(** A valid index defines the sections the parser returned: at least
    one, all different. *)
Lemma valid_index_sections (content : string) :
  manifest_valid (check_index_format (Some content)) = true ->
  if_sections (check_index_format (Some content)) <> []
  /\ NoDup (if_sections (check_index_format (Some content))).
Proof.
  unfold check_index_format.
  destruct (String.index 0 MANIFEST_START content); simpl; [|discriminate].
  intros Hs.
  destruct (ManifestClaims.parse_success content Hs) as (b & _ & P & Hne & -> & _).
  apply parse_lines_sound in P as (_ & _ & Hnd & _). split.
  - intros E. apply Hne. apply Permutation_nil_r. rewrite <- E.
    symmetry. apply sort_by_perm.
  - rewrite sort_by_perm. by eapply NoDup_fmap_1.
Qed.

(** Counting the missing sections when the completed ones are different
    defined sections. *)
Lemma missing_count (defined completed : list string) :
  NoDup defined -> NoDup completed -> completed ⊆ defined ->
  (List.length (filter (fun s => s ∉ (list_to_set completed : gset string)) defined)
   + List.length completed = List.length defined)%nat.
Proof.
  intros Hd Hc Hsub.
  pose proof (filter_app_complement
                (fun s => s ∈ (list_to_set completed : gset string)) defined) as Hp.
  apply Permutation_length in Hp. rewrite length_app in Hp.
  assert (filter (fun s => s ∈ (list_to_set completed : gset string)) defined
          ≡ₚ completed) as Hq.
  { apply NoDup_Permutation; [by apply NoDup_filter|done|].
    intros x. rewrite list_elem_of_filter, elem_of_list_to_set.
    split; [tauto|]. intros Hx. split; [done|]. by apply Hsub. }
  apply Permutation_length in Hq. lia.
Qed.

Local Arguments check_index_format : simpl never.
Local Arguments get_completed_sections : simpl never.

Lemma nonempty_length {A : Type} (l : list A) :
  nonempty l = true <-> (1 <= List.length l)%nat.
Proof. destruct l; simpl; split; (done || lia). Qed.

Lemma nonempty_false {A : Type} (l : list A) : nonempty l = false <-> l = [].
Proof. by destruct l. Qed.

(** C2, amended: for a valid index with N defined sections and k
    completed section files the state is [has_index] exactly when k = 0,
    [partial] exactly when k >= 1 and a defined section is missing,
    [complete] exactly when no defined section is missing (N >= 1 holds for
    every valid index), and the progress string is "k/N".  When every
    completed file is a defined section (the names of a directory being
    pairwise different), [partial] is 1 <= k <= N-1 and [complete] is
    k = N. *)
Theorem valid_index_states (pd : sections_path) (r : section_progress) :
  check_section_progress pd = inr r ->
  manifest_valid (index_format r) = true ->
  let N := List.length (defined_sections r) in
  let k := List.length (completed_sections r) in
  (1 <= N)%nat
  /\ (state r = has_index <-> k = 0%nat)
  /\ (state r = partial <-> (1 <= k)%nat /\ missing_sections r <> [])
  /\ (state r = complete <-> missing_sections r = [] /\ (1 <= N)%nat)
  /\ progress r = (if Nat.ltb 0 N
                   then Str.concat [of_nat k; "/"%string; of_nat N]
                   else "0/0"%string)
  /\ (NoDup (listing pd) ->
      completed_sections r ⊆ defined_sections r ->
      (k <= N)%nat
      /\ (state r = partial <-> (1 <= k /\ k <= N - 1)%nat)
      /\ (state r = complete <-> k = N)).
Proof.
  unfold check_section_progress.
  destruct pd as [| |names [content|]]; simpl;
    try (intros [= <-]; simpl; discriminate);
    destruct (get_completed_sections _) as [e|completed] eqn:G;
    try discriminate; try (intros [= <-]; simpl; discriminate).
  intros [= <-]. simpl. intros Hv. rewrite Hv. simpl.
  destruct (valid_index_sections content Hv) as [Hne Hnd].
  set (defined := if_sections (check_index_format (Some content))) in *.
  set (missing := filter _ defined).
  assert (missing = [] -> completed <> []) as Hmc.
  { intros Hm ->. exfalso. subst missing.
    destruct defined as [|x l]; [done|].
    rewrite filter_cons in Hm. case_decide as Hx; [discriminate|].
    simpl in Hx. by apply not_elem_of_empty in Hx. }
  assert (1 <= List.length defined)%nat as HN.
  { destruct defined; [done|simpl; lia]. }
  assert (nonempty defined = true) as Hdef by by apply nonempty_length.
  rewrite Hdef.
  split; [exact HN|].
  assert (forall l : list string, List.length l = 0%nat <-> l = []) as L0.
  { intros []; simpl; split; (done || lia). }
  assert (forall l : list string, (1 <= List.length l)%nat <-> l <> []) as L1.
  { intros []; simpl; split; (done || lia). }
  split; [|split; [|split; [|split]]].
  - rewrite L0. destruct completed, missing; simpl; split; done.
  - rewrite L1. destruct completed, missing; simpl; split;
      (done || by intros []).
  - destruct completed, missing; simpl; split; try done;
      try (by intros []). intros [_ _]. by destruct Hmc.
  - destruct defined; [done|]. done.
  - intros Hlnd Hsub.
    pose proof (completed_NoDup (Directory names (Some content)) _ Hlnd G) as Hcnd.
    pose proof (missing_count defined completed Hnd Hcnd Hsub) as Hcount.
    fold missing in Hcount.
    assert (missing = [] <-> List.length missing = 0%nat) as Hm0
      by (symmetry; apply L0).
    split; [lia|]. split.
    + destruct completed as [|c cs], missing as [|m ms]; simpl in *;
        split; try done; try lia.
    + destruct completed as [|c cs], missing as [|m ms]; simpl in *;
        split; try done; try lia.
Qed.

Lemma valid_index_states_witness :
  exists r,
    check_section_progress one_of_two_dir = inr r
    /\ (1 <= List.length (defined_sections r))%nat
    /\ (state r = has_index <-> List.length (completed_sections r) = 0%nat)
    /\ (state r = partial <->
          (1 <= List.length (completed_sections r))%nat /\ missing_sections r <> []).
Proof.
  destruct (check_section_progress one_of_two_dir) as [e|r] eqn:E;
    [vm_compute in E; discriminate|].
  exists r. split; [reflexivity|].
  assert (manifest_valid (index_format r) = true) as Hv.
  { vm_compute in E. injection E as <-. reflexivity. }
  destruct (valid_index_states one_of_two_dir r E Hv) as (H1 & H2 & H3 & _).
  exact (conj H1 (conj H2 H3)).
Defined.

(** C2 as stated fails: with two defined sections, the file of one of
    them and a file of a section that is not defined, k = N = 2 and the
    state is [partial]. *)
Lemma stray_file_is_partial : ~ refines_as_specified stray_file_dir.
Proof.
  intros H.
  destruct (check_section_progress stray_file_dir) as [e|r] eqn:E;
    [vm_compute in E; discriminate|].
  specialize (H r E).
  vm_compute in E. injection E as <-.
  destruct (H eq_refl) as (_ & Hpartial & _); [simpl; lia|].
  simpl in Hpartial. destruct Hpartial as [Hp _].
  specialize (Hp eq_refl). lia.
Qed.

Example stray_file_progress :
  match check_section_progress stray_file_dir with
  | inr r => state r = partial /\ progress r = "2/2"%string
             /\ missing_sections r = ["section-02-b"%string]
  | inl _ => False
  end.
Proof. vm_compute. repeat split. Qed.

End ProgressClaims.

(** ** The resume step *)

Module StepClaims.
Import Sections Setup StepSpec.





(** The record used above is what the progress check returns. *)
Example invalid_index_progress_reached :
  check_section_progress invalid_index_dir = inr invalid_index_progress.
Proof. vm_compute. reflexivity. Qed.

(** The example of the specification: plan wins over interview. *)
Example plan_wins_over_interview (sp : section_progress) :
  infer_resume_step plan_and_interview sp
  = (Some 12, "implementation plan complete"%string).
Proof. reflexivity. Qed.

End StepClaims.

(** ** The TODO list *)

Module TodoClaims.
Import Todos TodoSpec.

(** The loop only appends to the list it was given. *)
Lemma todos_loop_app (items : list (string * string * Z)) (current_step : Z)
    (section_todos : option (list todo)) (todos : list todo) :
  todos_loop items current_step section_todos todos
  = todos ++ todos_loop items current_step section_todos [].
Proof.
  revert todos. induction items as [|[[c a] st] items IH]; intros todos; simpl.
  - by rewrite app_nil_r.
  - destruct section_todos as [sts|].
    + destruct (String.eqb c GENERATE_SECTION_TODOS_CONTENT); [apply IH|].
      destruct (String.eqb c WRITE_SECTIONS_CONTENT).
      * rewrite IH, (IH sts). by rewrite app_assoc.
      * rewrite IH, (IH [_]). by rewrite app_assoc.
    + rewrite IH, (IH [_]). by rewrite app_assoc.
Qed.

(** Without a replacement list every entry is rendered, in table order. *)
Lemma todos_loop_None (items : list (string * string * Z)) (current_step : Z) :
  todos_loop items current_step None [] = entry current_step <$> items.
Proof.
  induction items as [|[[c a] st] items IH]; simpl; [done|].
  by rewrite todos_loop_app, IH.
Qed.

Lemma generate_todos_None (current_step : Z)
    (plugin_root planning_dir initial_file : option string)
    (context_check_enabled : option bool) :
  generate_todos current_step None plugin_root planning_dir initial_file
    context_check_enabled
  = context_items plugin_root planning_dir initial_file context_check_enabled
    ++ (entry current_step <$> TODO_ITEMS).
Proof. unfold generate_todos. by rewrite todos_loop_app, todos_loop_None. Qed.

Lemma generate_todos_Some (current_step : Z) (section_todos : list todo)
    (plugin_root planning_dir initial_file : option string)
    (context_check_enabled : option bool) :
  generate_todos current_step (Some section_todos) plugin_root planning_dir
    initial_file context_check_enabled
  = context_items plugin_root planning_dir initial_file context_check_enabled
    ++ (entry current_step <$> take 18 TODO_ITEMS)
    ++ section_todos
    ++ (entry current_step <$> drop 20 TODO_ITEMS).
Proof.
  unfold generate_todos. rewrite todos_loop_app. f_equal.
  unfold TODO_ITEMS. cbn. rewrite <- !app_assoc. reflexivity.
Qed.

(** The context items are completed and none looks like a sentinel. *)
Lemma context_items_completed
    (plugin_root planning_dir initial_file : option string)
    (context_check_enabled : option bool) :
  Forall (fun t => status t = completed /\ ~ is_sentinel t)
    (context_items plugin_root planning_dir initial_file context_check_enabled).
Proof.
  unfold context_items.
  destruct (truthy plugin_root), (truthy planning_dir), (truthy initial_file),
    context_check_enabled as [[]|]; simpl;
    repeat (constructor; [split; [reflexivity|intros [H|H]; discriminate]|]);
    constructor.
Qed.




Lemma step_status_cases (step current_step : Z) :
  (step < current_step -> step_status step current_step = completed)
  /\ (step = current_step -> step_status step current_step = in_progress)
  /\ (current_step < step -> step_status step current_step = pending).
Proof.
  unfold step_status.
  destruct (Z.ltb_spec step current_step), (Z.eqb_spec step current_step);
    repeat split; intros; (done || lia).
Qed.

Lemma count_status_app (st : status_t) (l1 l2 : list todo) :
  count_status st (l1 ++ l2) = (count_status st l1 + count_status st l2)%nat.
Proof. unfold count_status. by rewrite filter_app, List.length_app. Qed.


Lemma count_status_none (st : status_t) (l : list todo) :
  Forall (fun t => status t <> st) l -> count_status st l = 0%nat.
Proof.
  unfold count_status. induction 1 as [|t l Ht _ IH]; [done|].
  rewrite filter_cons. by case_decide.
Qed.


(** The example of the specification, with two context items. *)
Example new_session_counts :
  let out := generate_todos 6 None (Some "/plugin"%string) None None (Some true) in
  count_status completed out = 7%nat
  /\ count_status in_progress out = 1%nat
  /\ count_status pending out = 16%nat.
Proof. vm_compute. repeat split. Qed.

End TodoClaims.


(** ** Further properties of the manifest parser *)

Module ManifestMore.
Import Sections ManifestSpec ManifestFacts ExtraSpec.

(** The two shapes of a result. *)
Lemma parse_result_cases (content : string) :
  (success (parse_manifest_block content) = true
   /\ error (parse_manifest_block content) = None)
  \/ (exists e, parse_manifest_block content = failure [] e).
Proof.
  unfold parse_manifest_block.
  destruct (find_block content) as [e|block]; [right; eauto|].
  destruct (Str.is_empty block); [right; eauto|].
  destruct (parse_lines _ 1 ∅ []) as [e|[|x l]]; [right; eauto|right; eauto|].
  left. by split.
Qed.

Lemma success_sections_nonempty (content : string) :
  success (parse_manifest_block content) = true ->
  sections (parse_manifest_block content) <> [].
Proof.
  intros Hs.
  destruct (ManifestClaims.parse_success content Hs) as (b & _ & _ & Hne & -> & _).
  intros E. apply Hne. apply Permutation_nil_r. rewrite <- E.
  symmetry. apply sort_by_perm.
Qed.

Lemma no_marker_fails (content : string) :
  String.index 0 MANIFEST_START content = None ->
  parse_manifest_block content = failure [] NoManifestBlock.
Proof. intros H. unfold parse_manifest_block, find_block. by rewrite H. Qed.

(** X1: [parse_index_sections] returns the sections that
    [check_index_format] reports, and the empty list exactly when the
    latter finds no valid manifest. *)
Theorem parse_index_sections_agrees (index_path : option string) :
  parse_index_sections index_path = if_sections (check_index_format index_path)
  /\ (parse_index_sections index_path = []
      <-> manifest_valid (check_index_format index_path) = false).
Proof.
  destruct index_path as [content|]; [|by split].
  unfold parse_index_sections, check_index_format.
  destruct (String.index 0 MANIFEST_START content) as [start_idx|] eqn:I;
    cbn [negb manifest_valid if_sections].
  - destruct (parse_result_cases content) as [[Hs _]|[e He]].
    + rewrite Hs. split; [done|]. split; [|done].
      intros E. by destruct (success_sections_nonempty content Hs).
    + rewrite He. simpl. by split.
  - rewrite (no_marker_fails content I). simpl. by split.
Qed.

(** A report is either valid, without error, or invalid, with an error
    and nothing else. *)
Lemma index_format_shape (index_path : option string) :
  let f := check_index_format index_path in
  (manifest_valid f = true /\ if_error f = None)
  \/ (manifest_valid f = false /\ is_Some (if_error f)
      /\ if_sections f = [] /\ if_warnings f = []).
Proof.
  destruct index_path as [content|]; [|right; repeat split; eauto].
  unfold check_index_format.
  destruct (String.index 0 MANIFEST_START content) as [start_idx|];
    cbn [negb]; [|right; repeat split; eauto].
  cbn. destruct (parse_result_cases content) as [[Hs He]|[e He]].
  - rewrite Hs, He. by left.
  - rewrite He. right. repeat split; eauto.
Qed.

(** X2: in the report of [check_index_format] the manifest is valid
    exactly when there is no error message; a valid manifest implies that
    a manifest is there, which implies that the index exists; and an
    invalid one comes with no sections and no warnings. *)
Theorem index_format_flags (index_path : option string) :
  let f := check_index_format index_path in
  (manifest_valid f = true <-> if_error f = None)
  /\ (manifest_valid f = true -> has_manifest f = true)
  /\ (has_manifest f = true -> if_exists f = true)
  /\ (manifest_valid f = false -> if_sections f = [] /\ if_warnings f = []).
Proof.
  destruct index_path as [content|]; [|by repeat split].
  unfold check_index_format.
  destruct (String.index 0 MANIFEST_START content) as [start_idx|] eqn:I;
    cbn [negb]; [|by repeat split].
  cbn.
  destruct (parse_result_cases content) as [[Hs He]|[e He]].
  - rewrite Hs, He. by repeat split.
  - rewrite He. by repeat split.
Qed.

(** X3: a text parses successfully exactly when it has a closed manifest
    block whose stripped non-blank lines are at least one and all section
    identifiers [section-NN-name] with pairwise different [NN]. *)
Theorem parse_succeeds_iff (content : string) :
  success (parse_manifest_block content) = true
  <-> exists block,
        find_block content = inr block
        /\ block_lines block <> []
        /\ Forall well_formed (block_lines block)
        /\ NoDup (group1 <$> block_lines block).
Proof.
  split.
  - intros Hs.
    destruct (ManifestClaims.parse_success content Hs) as (b & Hb & P & Hne & _).
    apply parse_lines_sound in P as (_ & Hwf & Hnd & _).
    exists b. by repeat split.
  - intros (block & Hb & Hne & Hwf & Hnd).
    unfold parse_manifest_block. rewrite Hb.
    destruct (Str.is_empty block) eqn:E.
    { apply StrFacts.is_empty_true in E. subst block. by destruct Hne. }
    unfold block_lines in *.
    rewrite (parse_lines_complete _ 1 ∅ [] Hwf Hnd);
      [|intros g _; apply not_elem_of_empty].
    simpl. by destruct (accepted_lines _).
Qed.

(** The loop fails at the first non-blank line that is not an identifier,
    with its number among all lines. *)
Lemma parse_lines_first_invalid (before after : list string) (raw : string) :
  forall (n : Z) (seen : gset string) (secs : list string),
    Forall well_formed (accepted_lines before) ->
    NoDup (group1 <$> accepted_lines before) ->
    (forall g, Some g ∈ group1 <$> accepted_lines before -> g ∉ seen) ->
    Str.is_empty (Str.strip raw) = false ->
    SECTION_NAME_PATTERN_match (Str.strip raw) = None ->
    parse_lines (before ++ raw :: after) n seen secs
    = inl (InvalidSectionName (n + Z.of_nat (List.length before)) (Str.strip raw)).
Proof.
  induction before as [|raw0 before IH]; intros n seen secs Hwf Hnd Hfresh Hne Hm.
  - simpl. rewrite Hne, Hm. do 2 f_equal. lia.
  - cbn [app parse_lines]. rewrite accepted_lines_cons in Hwf, Hnd, Hfresh.
    destruct (Str.is_empty (Str.strip raw0)) eqn:E.
    { rewrite IH by done. do 2 f_equal. simpl. lia. }
    apply Forall_cons in Hwf as [[[g nm] M] Hwf].
    rewrite M. pose proof (group1_match _ _ _ M) as G.
    rewrite fmap_cons, G in Hnd, Hfresh.
    apply NoDup_cons in Hnd as [Hng Hnd].
    case_decide as Hseen.
    { exfalso. eapply Hfresh; [|exact Hseen]. apply elem_of_cons. by left. }
    rewrite IH; try done.
    + do 2 f_equal. simpl. lia.
    + intros g' Hg'. apply not_elem_of_union. split.
      * apply not_elem_of_singleton. intros ->. by apply Hng.
      * apply Hfresh. apply elem_of_cons. by right.
Qed.

(** The loop fails at the first non-blank line whose number an earlier
    line has. *)
Lemma parse_lines_first_duplicate (before after : list string) (raw g nm : string) :
  forall (n : Z) (seen : gset string) (secs : list string),
    Forall well_formed (accepted_lines before) ->
    NoDup (group1 <$> accepted_lines before) ->
    (forall g, Some g ∈ group1 <$> accepted_lines before -> g ∉ seen) ->
    Str.is_empty (Str.strip raw) = false ->
    SECTION_NAME_PATTERN_match (Str.strip raw) = Some (g, nm) ->
    Some g ∈ group1 <$> accepted_lines before \/ g ∈ seen ->
    parse_lines (before ++ raw :: after) n seen secs
    = inl (DuplicateSectionNumber (n + Z.of_nat (List.length before))
             (Str.strip raw) g).
Proof.
  induction before as [|raw0 before IH];
    intros n seen secs Hwf Hnd Hfresh Hne Hm Hdup.
  - simpl. rewrite Hne, Hm.
    destruct Hdup as [Hdup|Hdup]; [by apply elem_of_nil in Hdup|].
    case_decide; [|done]. do 2 f_equal. lia.
  - cbn [app parse_lines]. rewrite accepted_lines_cons in Hwf, Hnd, Hfresh, Hdup.
    destruct (Str.is_empty (Str.strip raw0)) eqn:E.
    { rewrite IH by done. do 2 f_equal. simpl. lia. }
    apply Forall_cons in Hwf as [[[g0 nm0] M] Hwf].
    rewrite M. pose proof (group1_match _ _ _ M) as G.
    rewrite fmap_cons, G in Hnd, Hfresh, Hdup.
    apply NoDup_cons in Hnd as [Hng Hnd].
    case_decide as Hseen.
    { exfalso. eapply Hfresh; [|exact Hseen]. apply elem_of_cons. by left. }
    rewrite IH; try done.
    + do 2 f_equal. simpl. lia.
    + intros g' Hg'. apply not_elem_of_union. split.
      * apply not_elem_of_singleton. intros ->. by apply Hng.
      * apply Hfresh. apply elem_of_cons. by right.
    + destruct Hdup as [Hdup|Hdup].
      * apply elem_of_cons in Hdup as [[= ->]|Hdup]; [|by left].
        right. apply elem_of_union. left. by apply elem_of_singleton.
      * right. apply elem_of_union. by right.
Qed.

Lemma block_of_lines_nonempty (block raw : string) (before after : list string) :
  Str.split Str.newline block = before ++ raw :: after ->
  Str.is_empty (Str.strip raw) = false ->
  Str.is_empty block = false.
Proof.
  intros Hsplit Hne. destruct block; [|done].
  destruct before as [|x [|y before]]; try discriminate.
  injection Hsplit as <- _. discriminate.
Qed.

(** X4: the parse fails with "Invalid section name" at the first
    non-blank line of the block that is not a section identifier, when the
    lines before it are accepted; the error names the 1-based number of
    that line among the lines of the stripped block, and the stripped
    line. *)
Theorem first_invalid_line_is_reported (content block raw : string)
    (before after : list string) :
  find_block content = inr block ->
  Str.split Str.newline block = before ++ raw :: after ->
  Forall well_formed (accepted_lines before) ->
  NoDup (group1 <$> accepted_lines before) ->
  Str.is_empty (Str.strip raw) = false ->
  SECTION_NAME_PATTERN_match (Str.strip raw) = None ->
  parse_manifest_block content
  = failure [] (InvalidSectionName (1 + Z.of_nat (List.length before)) (Str.strip raw)).
Proof.
  intros Hb Hsplit Hwf Hnd Hne Hm.
  unfold parse_manifest_block. rewrite Hb.
  rewrite (block_of_lines_nonempty _ _ _ _ Hsplit Hne), Hsplit.
  assert (forall g0, Some g0 ∈ group1 <$> accepted_lines before -> g0 ∉ (∅ : gset string))
    as Hfresh by (intros g0 _; apply not_elem_of_empty).
  by rewrite (parse_lines_first_invalid before after raw 1 ∅ [] Hwf Hnd Hfresh Hne Hm).
Qed.

(** X5: the parse fails with "Duplicate section number" at the first
    non-blank line whose two digits an earlier accepted line has; the
    error names the number of that line, the line and the digits. *)
Theorem first_duplicate_is_reported (content block raw g nm : string)
    (before after : list string) :
  find_block content = inr block ->
  Str.split Str.newline block = before ++ raw :: after ->
  Forall well_formed (accepted_lines before) ->
  NoDup (group1 <$> accepted_lines before) ->
  Str.is_empty (Str.strip raw) = false ->
  SECTION_NAME_PATTERN_match (Str.strip raw) = Some (g, nm) ->
  Some g ∈ group1 <$> accepted_lines before ->
  parse_manifest_block content
  = failure [] (DuplicateSectionNumber (1 + Z.of_nat (List.length before))
                  (Str.strip raw) g).
Proof.
  intros Hb Hsplit Hwf Hnd Hne Hm Hdup.
  unfold parse_manifest_block. rewrite Hb.
  rewrite (block_of_lines_nonempty _ _ _ _ Hsplit Hne), Hsplit.
  assert (forall g0, Some g0 ∈ group1 <$> accepted_lines before -> g0 ∉ (∅ : gset string))
    as Hfresh by (intros g0 _; apply not_elem_of_empty).
  by rewrite (parse_lines_first_duplicate before after raw g nm 1 ∅ []
                Hwf Hnd Hfresh Hne Hm (or_introl Hdup)).
Qed.

Lemma first_invalid_line_is_reported_witness :
  parse_manifest_block
    (document ["section-01-a"; "invalid-section-name"; "section-02-b"]%string)
  = failure []
      (InvalidSectionName (1 + Z.of_nat (List.length ["section-01-a"%string]))
         (Str.strip "invalid-section-name")).
Proof.
  apply (first_invalid_line_is_reported
           (document ["section-01-a"; "invalid-section-name"; "section-02-b"]%string)
           (joined ["section-01-a"; "invalid-section-name"; "section-02-b"]%string)
           "invalid-section-name" ["section-01-a"%string] ["section-02-b"%string]).
  - vm_compute. reflexivity.
  - vm_compute. reflexivity.
  - apply (bool_decide_unpack _). vm_compute. exact I.
  - apply (bool_decide_unpack _). vm_compute. exact I.
  - vm_compute. reflexivity.
  - vm_compute. reflexivity.
Defined.

Lemma first_duplicate_is_reported_witness :
  parse_manifest_block
    (document ["section-01-a"; "section-02-b"; "section-02-c"; "bad"]%string)
  = failure []
      (DuplicateSectionNumber
         (1 + Z.of_nat (List.length ["section-01-a"; "section-02-b"]%string))
         (Str.strip "section-02-c") "02").
Proof.
  apply (first_duplicate_is_reported
           (document ["section-01-a"; "section-02-b"; "section-02-c"; "bad"]%string)
           (joined ["section-01-a"; "section-02-b"; "section-02-c"; "bad"]%string)
           "section-02-c" "02" "c"
           ["section-01-a"; "section-02-b"]%string ["bad"%string]).
  - vm_compute. reflexivity.
  - vm_compute. reflexivity.
  - apply (bool_decide_unpack _). vm_compute. exact I.
  - apply (bool_decide_unpack _). vm_compute. exact I.
  - vm_compute. reflexivity.
  - vm_compute. reflexivity.
  - apply (bool_decide_unpack _). vm_compute. exact I.
Defined.

(** *** Warnings *)

Lemma gaps_nil_iff (nums : list Z) :
  forall e : Z,
    filter (fun p : Z * Z => p.1 <> p.2) (zip (e :: (Z.succ <$> nums)) nums) = []
    <-> nums = seqZ e (Z.of_nat (List.length nums)).
Proof.
  induction nums as [|n rest IH]; intros e.
  - by rewrite seqZ_nil.
  - rewrite fmap_cons, gaps_cons_aux.
    rewrite seqZ_cons by (simpl; lia).
    replace (Z.pred (Z.of_nat (List.length (n :: rest))))
      with (Z.of_nat (List.length rest)) by (simpl; lia).
    destruct (Z.eqb_spec n e) as [->|Hne]; simpl.
    + rewrite (IH (e + 1)). replace (Z.succ e) with (e + 1) by lia.
      split; [by intros <-|]. by intros [= <-].
    + split; [discriminate|]. by intros [= ?].
Qed.

(** X6: a successful parse returns no warning exactly when the sections,
    in the returned order, are numbered 1, 2, ..., N. *)
Theorem no_warning_iff_numbered_from_one (content : string) :
  success (parse_manifest_block content) = true ->
  (warnings (parse_manifest_block content) = []
   <-> section_number <$> sections (parse_manifest_block content)
       = seqZ 1 (Z.of_nat (List.length (sections (parse_manifest_block content))))).
Proof.
  intros Hs.
  destruct (ManifestClaims.parse_success content Hs) as (b & _ & _ & _ & _ & Hw & _).
  rewrite Hw, gap_loop_gaps.
  rewrite <- (length_fmap section_number (sections (parse_manifest_block content))).
  rewrite <- gaps_nil_iff. split.
  - apply fmap_nil_inv.
  - by intros ->.
Qed.

Lemma no_warning_iff_numbered_from_one_witness :
  warnings (parse_manifest_block
    (document ["section-02-b"; "section-01-a"; "section-03-c"]%string)) = []
  <-> section_number <$> sections (parse_manifest_block
        (document ["section-02-b"; "section-01-a"; "section-03-c"]%string))
      = seqZ 1 (Z.of_nat (List.length (sections (parse_manifest_block
          (document ["section-02-b"; "section-01-a"; "section-03-c"]%string))))).
Proof. apply no_warning_iff_numbered_from_one. vm_compute. reflexivity. Defined.

(** *** Where the block is *)

Lemma app_cons (c : ascii) (s t : string) : String c s +:+ t = String c (s +:+ t).
Proof. reflexivity. Qed.

Lemma app_empty (t : string) : EmptyString +:+ t = t.
Proof. reflexivity. Qed.

Lemma prefix_app (s rest : string) : String.prefix s (s +:+ rest) = true.
Proof.
  induction s as [|a s IH]; [by destruct rest|].
  rewrite app_cons. cbn [String.prefix].
  destruct (ascii_dec a a); [exact IH|done].
Qed.

Lemma string_app_assoc (a b c : string) : (a +:+ b) +:+ c = a +:+ (b +:+ c).
Proof.
  induction a as [|x a IH]; [done|]. rewrite !app_cons. by rewrite IH.
Qed.

Lemma has_char_app (c : ascii) (a b : string) :
  has_char c (a +:+ b) = has_char c a || has_char c b.
Proof.
  induction a as [|x a IH]; [done|].
  rewrite app_cons. cbn [has_char]. by rewrite IH, orb_assoc.
Qed.

(** [find] from a position behind a prefix looks at the rest only. *)
Lemma index_skip (pre s t : string) :
  String.index (String.length pre) s (pre +:+ t)
  = (fun i => (String.length pre + i)%nat) <$> String.index 0 s t.
Proof.
  induction pre as [|c pre IH].
  - rewrite app_empty. cbn [String.length]. by destruct (String.index 0 s t).
  - rewrite app_cons. cbn [String.length String.index].
    rewrite IH. by destruct (String.index 0 s t).
Qed.

(** The first occurrence of a string is behind every prefix that lacks
    its first character. *)
Lemma index_first (pre s rest : string) (c : ascii) :
  has_char c pre = false ->
  String.index 0 (String c s) (pre +:+ String c s +:+ rest)
  = Some (String.length pre).
Proof.
  induction pre as [|a pre IH]; intros Hc.
  - change (EmptyString +:+ String c s +:+ rest) with (String c (s +:+ rest)).
    cbn [String.index String.length].
    change (String c (s +:+ rest)) with (String c s +:+ rest).
    by rewrite prefix_app.
  - simpl in Hc. apply orb_false_iff in Hc as [Hac Hc].
    apply Ascii.eqb_neq in Hac.
    change (String a pre +:+ String c s +:+ rest)
      with (String a (pre +:+ String c s +:+ rest)).
    cbn [String.index String.length String.prefix].
    destruct (ascii_dec c a) as [->|_]; [done|]. by rewrite (IH Hc).
Qed.

(** A text that starts with the end marker has [>] as its 16th
    character. *)
Lemma prefix_end_marker (t : string) :
  String.prefix MANIFEST_END t = true -> String.get 15 t = Some ">"%char.
Proof.
  unfold MANIFEST_END.
  do 16 (destruct t as [|? t]; [discriminate|];
         cbn [String.prefix]; destruct (ascii_dec _ _) as [<-|]; [|discriminate]).
  reflexivity.
Qed.

(** Behind a non-empty text without [>] the end marker cannot start
    earlier. *)
Lemma no_early_end_marker (x post : string) :
  x <> EmptyString -> has_char ">" x = false ->
  String.prefix MANIFEST_END (x +:+ MANIFEST_END +:+ post) = false.
Proof.
  intros Hne Hx.
  destruct (String.prefix MANIFEST_END _) eqn:P; [|done].
  apply prefix_end_marker in P. exfalso. revert P. unfold MANIFEST_END.
  destruct x as [|c0 x]; [done|]. clear Hne.
  do 15 (destruct x as [|? x]; [simpl; discriminate|]).
  simpl. intros [= ->]. simpl in Hx.
  repeat (apply orb_false_iff in Hx as [? Hx]); discriminate.
Qed.

Lemma index_end_marker (x post : string) :
  has_char ">" x = false ->
  String.index 0 MANIFEST_END (x +:+ MANIFEST_END +:+ post)
  = Some (String.length x).
Proof.
  induction x as [|a x IH]; intros Hx.
  - exact (index_first EmptyString "ND_MANIFEST -->" post "E" eq_refl).
  - pose proof (no_early_end_marker (String a x) post) as Hno.
    simpl in Hx. apply orb_false_iff in Hx as [Ha Hx'].
    change (String a x +:+ MANIFEST_END +:+ post)
      with (String a (x +:+ MANIFEST_END +:+ post)) in *.
    cbn [String.index String.length].
    rewrite Hno; [|done|simpl; by rewrite Ha, Hx'].
    by rewrite (IH Hx').
Qed.

Lemma substring_skip (a t : string) (n m : nat) :
  String.substring (String.length a + n) m (a +:+ t) = String.substring n m t.
Proof.
  induction a as [|c a IH]; [done|].
  rewrite app_cons. cbn [String.length Nat.add String.substring]. exact IH.
Qed.

(** X7: in a text made of a part without [<], the start marker, a body
    without [>], the end marker and any rest, the block that is parsed is
    the stripped body: what stands before and after the markers is
    ignored. *)
Theorem find_block_between_markers (pre body post : string) :
  has_char "<" pre = false ->
  has_char ">" body = false ->
  find_block (pre +:+ MANIFEST_START +:+ body +:+ MANIFEST_END +:+ post)
  = inr (Str.strip body)
  /\ parse_manifest_block (pre +:+ MANIFEST_START +:+ body +:+ MANIFEST_END +:+ post)
     = parse_manifest_block (MANIFEST_START +:+ body +:+ MANIFEST_END).
Proof.
  assert (forall pre post : string,
    has_char "<" pre = false -> has_char ">" body = false ->
    find_block (pre +:+ MANIFEST_START +:+ body +:+ MANIFEST_END +:+ post)
    = inr (Str.strip body)) as Hfind.
  { clear pre post. intros pre post Hpre Hbody. unfold find_block.
    unfold MANIFEST_START at 1 2.
    rewrite (index_first pre _ _ "<" Hpre).
    fold MANIFEST_START.
    rewrite index_skip.
    rewrite <- (string_app_assoc MANIFEST_START body).
    rewrite index_end_marker
      by (rewrite has_char_app, Hbody; reflexivity).
    cbn [fmap option_fmap option_map]. unfold Str.slice.
    replace (String.length pre + String.length (MANIFEST_START +:+ body)
             - (String.length pre + String.length MANIFEST_START))%nat
      with (String.length body)
      by (rewrite ProgressFacts.string_length_app; lia).
    rewrite string_app_assoc.
    replace (String.length pre + String.length MANIFEST_START)%nat
      with (String.length pre + (String.length MANIFEST_START + 0))%nat by lia.
    rewrite !substring_skip.
    by rewrite ProgressFacts.substring_prefix. }
  intros Hpre Hbody. split; [by apply Hfind|].
  unfold parse_manifest_block.
  rewrite (Hfind pre post Hpre Hbody).
  pose proof (Hfind EmptyString EmptyString eq_refl Hbody) as H0.
  change (EmptyString +:+ MANIFEST_START +:+ body +:+ MANIFEST_END +:+ EmptyString)
    with (MANIFEST_START +:+ body +:+ MANIFEST_END +:+ EmptyString) in H0.
  replace (MANIFEST_END +:+ EmptyString) with MANIFEST_END in H0 by reflexivity.
  by rewrite H0.
Qed.

Lemma find_block_between_markers_witness :
  find_block ("# Index " +:+ MANIFEST_START +:+ " section-01-a "
              +:+ MANIFEST_END +:+ " <rest>")
  = inr (Str.strip " section-01-a ")
  /\ parse_manifest_block ("# Index " +:+ MANIFEST_START +:+ " section-01-a "
                           +:+ MANIFEST_END +:+ " <rest>")
     = parse_manifest_block (MANIFEST_START +:+ " section-01-a " +:+ MANIFEST_END).
Proof. apply find_block_between_markers; reflexivity. Defined.

End ManifestMore.


(** ** Further properties of the section progress *)

Module ProgressMore.
Import Sections ManifestSpec ManifestFacts ProgressSpec ProgressFacts ExtraSpec.

Local Arguments check_index_format : simpl never.
Local Arguments get_completed_sections : simpl never.

(** The fields of a returned record, in terms of each other. *)
Lemma progress_fields (pd : sections_path) (r : section_progress) :
  check_section_progress pd = inr r ->
  index_exists r = bool_decide (is_Some (index_of pd))
  /\ (index_exists r = true -> path_is_dir pd = true)
  /\ (index_exists r = true -> index_format r = check_index_format (index_of pd))
  /\ (index_exists r = false -> manifest_valid (index_format r) = false
                                /\ if_sections (index_format r) = [])
  /\ defined_sections r = if_sections (index_format r)
  /\ (if path_is_dir pd then get_completed_sections pd else inr [])
     = inr (completed_sections r)
  /\ missing_sections r
     = filter (fun s => s ∉ (list_to_set (completed_sections r) : gset string))
              (defined_sections r)
  /\ next_section r = head (missing_sections r)
  /\ state r =
       (if negb (path_is_dir pd)
           || (negb (index_exists r) && negb (nonempty (completed_sections r)))
        then fresh
        else if index_exists r && negb (manifest_valid (index_format r))
        then invalid_index
        else if index_exists r && negb (nonempty (completed_sections r))
        then has_index
        else if index_exists r && nonempty (missing_sections r)
        then partial
        else if index_exists r && negb (nonempty (missing_sections r))
                && nonempty (defined_sections r)
        then complete
        else fresh)
  /\ progress r =
       (if Nat.ltb 0 (List.length (defined_sections r))
        then Str.concat [of_nat (List.length (completed_sections r)); "/"%string;
                         of_nat (List.length (defined_sections r))]
        else "0/0"%string).
Proof.
  unfold check_section_progress.
  destruct pd as [| |names [content|]]; cbn [index_of path_exists path_is_dir andb];
    try (intros [= <-]; cbn; by repeat split).
  - destruct (get_completed_sections _) as [e|completed]; [discriminate|].
    intros [= <-]. cbn. by repeat split.
  - destruct (get_completed_sections _) as [e|completed]; [discriminate|].
    intros [= <-]. cbn. by repeat split.
Qed.

Lemma valid_defined_nonempty (index_path : option string) :
  manifest_valid (check_index_format index_path) = true ->
  nonempty (if_sections (check_index_format index_path)) = true.
Proof.
  destruct index_path as [content|]; [|discriminate]. intros Hv.
  destruct (ProgressClaims.valid_index_sections content Hv) as [Hne _].
  by destruct (if_sections _).
Qed.

Lemma invalid_defined_empty (index_path : option string) :
  manifest_valid (check_index_format index_path) = false ->
  if_sections (check_index_format index_path) = [].
Proof.
  intros Hv.
  destruct (ManifestMore.index_format_shape index_path) as [[Hv' _]|(_ & _ & H & _)];
    [congruence|exact H].
Qed.

(** The two states without a valid manifest. *)
Lemma fresh_invalid_iff (pd : sections_path) (r : section_progress) :
  check_section_progress pd = inr r ->
  (state r = fresh <-> index_of pd = None)
  /\ (state r = invalid_index
      <-> is_Some (index_of pd) /\ manifest_valid (index_format r) = false).
Proof.
  intros H.
  destruct (progress_fields pd r H)
    as (Hie & Hdir & Hfmt & Hnofmt & Hdef & _ & Hmiss & Hnext & Hstate & Hprog).
  assert (index_exists r = true -> manifest_valid (index_format r) = true ->
          nonempty (defined_sections r) = true) as Hval.
  { intros E Hv. rewrite Hdef. rewrite (Hfmt E) in *. by apply valid_defined_nonempty. }
  assert (index_of pd = None <-> index_exists r = false) as Hnone.
  { rewrite Hie. by destruct (index_of pd); split. }
  assert (is_Some (index_of pd) <-> index_exists r = true) as Hsome.
  { rewrite Hie. split; [apply bool_decide_eq_true_2|apply bool_decide_eq_true_1]. }
  rewrite Hnone, Hsome. split.
  - rewrite Hstate. destruct (index_exists r) eqn:E.
    + rewrite (Hdir eq_refl). specialize (Hval eq_refl).
      destruct (manifest_valid (index_format r)); simpl; [|done].
      rewrite (Hval eq_refl).
      by destruct (nonempty (completed_sections r)), (nonempty (missing_sections r)).
    + simpl. by destruct (negb (path_is_dir pd)), (nonempty (completed_sections r)).
  - rewrite Hstate. destruct (index_exists r) eqn:E.
    + rewrite (Hdir eq_refl). specialize (Hval eq_refl).
      destruct (manifest_valid (index_format r)); simpl; [|by split].
      rewrite (Hval eq_refl).
      destruct (nonempty (completed_sections r)), (nonempty (missing_sections r));
        simpl; split; try done; by intros [_ ?].
    + simpl. destruct (negb (path_is_dir pd)), (nonempty (completed_sections r));
        simpl; split; try done; by intros [? _].
Qed.

(** X8: the state is [fresh] exactly when there is no [index.md], and
    [invalid_index] exactly when there is one without a valid manifest;
    without a valid manifest no section is defined or missing, there is no
    next section, and the progress is "0/0" however many section files
    exist. *)
Theorem states_without_valid_manifest (pd : sections_path) (r : section_progress) :
  check_section_progress pd = inr r ->
  (state r = fresh <-> index_of pd = None)
  /\ (state r = invalid_index
      <-> is_Some (index_of pd) /\ manifest_valid (index_format r) = false)
  /\ (manifest_valid (index_format r) = false ->
      defined_sections r = [] /\ missing_sections r = []
      /\ next_section r = None /\ progress r = "0/0"%string).
Proof.
  intros H. destruct (fresh_invalid_iff pd r H) as [Hfresh Hinvalid].
  split; [exact Hfresh|]. split; [exact Hinvalid|].
  destruct (progress_fields pd r H)
    as (_ & _ & Hfmt & Hnofmt & Hdef & _ & Hmiss & Hnext & _ & Hprog).
  intros Hv.
  assert (defined_sections r = []) as Hd.
  { rewrite Hdef. destruct (index_exists r) eqn:E.
    - rewrite (Hfmt eq_refl) in *. by apply invalid_defined_empty.
    - by destruct (Hnofmt eq_refl). }
  rewrite Hnext, Hmiss, Hprog, Hd. by repeat split.
Qed.

Lemma states_without_valid_manifest_witness :
  exists r,
    check_section_progress StepSpec.invalid_index_dir = inr r
    /\ (state r = invalid_index
        <-> is_Some (index_of StepSpec.invalid_index_dir)
            /\ manifest_valid (index_format r) = false).
Proof.
  destruct (check_section_progress StepSpec.invalid_index_dir) as [e|r] eqn:E;
    [vm_compute in E; discriminate|].
  exists r. split; [reflexivity|].
  exact (proj1 (proj2 (states_without_valid_manifest _ r E))).
Defined.

(** *** Sections and their files *)

Lemma completed_perm (d : sections_path) (l : list string) :
  get_completed_sections d = inr l ->
  l ≡ₚ stem <$> filter (fun f => glob_section_md f = true) (listing d).
Proof.
  unfold get_completed_sections.
  destruct (path_exists d) eqn:Ex; cbn [negb].
  - destruct (forallb _ _); [|discriminate]. intros [= <-]. apply sort_by_perm.
  - intros [= <-]. by destruct d.
Qed.

(** A section whose name starts with [section-] is completed exactly when
    the directory holds its file. *)
Lemma completed_iff_file (d : sections_path) (l : list string) (s rest : string) :
  get_completed_sections d = inr l ->
  Str.strip_prefix "section-" s = Some rest ->
  s ∈ l <-> section_file s ∈ listing d.
Proof.
  intros Hl Hp. rewrite (completed_perm d l Hl). rewrite list_elem_of_fmap.
  assert (s <> EmptyString) as Hne by (intros ->; discriminate).
  split.
  - intros (name & -> & Hname). apply list_elem_of_filter in Hname as [Hg Hin].
    destruct (glob_inv name Hg) as (base & -> & Hstem). unfold section_file.
    by rewrite Hstem.
  - intros Hin. exists (section_file s). unfold section_file. split.
    + symmetry. by apply stem_md.
    + apply list_elem_of_filter. split; [|done].
      unfold glob_section_md. rewrite (strip_prefix_app _ _ _ _ Hp).
      apply ends_with_app.
Qed.

Lemma well_formed_prefix (s : string) :
  well_formed s -> exists rest, Str.strip_prefix "section-" s = Some rest.
Proof.
  unfold well_formed, SECTION_NAME_PATTERN_match. intros [x H].
  destruct (Str.strip_prefix "section-" s) as [rest|]; [eauto|discriminate].
Qed.

(** The defined sections are identifiers in ascending order of number. *)
Lemma defined_well_sorted (index_path : option string) :
  Forall well_formed (if_sections (check_index_format index_path))
  /\ StronglySorted (key_le section_number)
       (if_sections (check_index_format index_path)).
Proof.
  unfold check_index_format.
  destruct index_path as [content|]; [|split; constructor].
  destruct (String.index 0 MANIFEST_START content) as [start_idx|];
    cbn [negb if_sections]; [|split; constructor].
  destruct (ManifestMore.parse_result_cases content) as [[Hs _]|[e He]];
    [|rewrite He; split; constructor].
  destruct (ManifestClaims.parse_success content Hs) as (b & _ & P & _ & -> & _).
  apply parse_lines_sound in P as (_ & Hwf & _). split.
  - by rewrite sort_by_perm.
  - apply sort_by_sorted.
Qed.

Lemma progress_defined (pd : sections_path) (r : section_progress) :
  check_section_progress pd = inr r ->
  Forall well_formed (defined_sections r)
  /\ StronglySorted (key_le section_number) (defined_sections r).
Proof.
  intros H.
  destruct (progress_fields pd r H) as (_ & _ & Hfmt & Hnofmt & -> & _).
  destruct (index_exists r).
  - rewrite (Hfmt eq_refl). apply defined_well_sorted.
  - destruct (Hnofmt eq_refl) as [_ ->]. split; constructor.
Qed.

(** A defined section is missing exactly when its file is not there. *)
Lemma missing_iff_no_file (pd : sections_path) (r : section_progress) (s : string) :
  check_section_progress pd = inr r ->
  s ∈ missing_sections r
  <-> s ∈ defined_sections r /\ section_file s ∉ listing pd.
Proof.
  intros H.
  destruct (progress_fields pd r H) as (_ & _ & _ & _ & _ & Hc & -> & _).
  destruct (progress_defined pd r H) as [Hwf _]. rewrite Forall_forall in Hwf.
  assert (s ∈ defined_sections r ->
          (s ∈ completed_sections r <-> section_file s ∈ listing pd)) as Haux.
  { intros Hd. destruct (well_formed_prefix s (Hwf s Hd)) as [rest Hp].
    destruct (path_is_dir pd) eqn:D.
    - by apply (completed_iff_file pd _ s rest Hc Hp).
    - injection Hc as <-.
      destruct pd; try discriminate; simpl; split; intros X;
        by apply elem_of_nil in X. }
  rewrite list_elem_of_filter, elem_of_list_to_set.
  split.
  - intros [H1 H2]. split; [done|]. by rewrite <- (Haux H2).
  - intros [H1 H2]. split; [|done]. by rewrite (Haux H1).
Qed.

Lemma filter_sorted {A : Type} (R : relation A) (P : A -> Prop)
    `{forall x, Decision (P x)} (l : list A) :
  StronglySorted R l -> StronglySorted R (filter P l).
Proof.
  induction 1 as [|x l Hl IH Hx]; [constructor|].
  rewrite filter_cons. case_decide; [|exact IH].
  constructor; [exact IH|].
  rewrite Forall_forall in Hx. apply Forall_forall.
  intros y Hy. apply list_elem_of_filter in Hy as [_ Hy]. by apply Hx.
Qed.

(** Nothing is missing exactly when every defined section has its file. *)
Lemma no_missing_iff_all_files (pd : sections_path) (r : section_progress) :
  check_section_progress pd = inr r ->
  missing_sections r = []
  <-> forall s, s ∈ defined_sections r -> section_file s ∈ listing pd.
Proof.
  intros H. pose proof (fun s => missing_iff_no_file pd r s H) as Hm. split.
  - intros E s Hs. destruct (decide (section_file s ∈ listing pd)) as [|Hn]; [done|].
    assert (s ∈ missing_sections r) as Hin by by apply Hm.
    rewrite E in Hin. by apply elem_of_nil in Hin.
  - intros Hall. destruct (missing_sections r) as [|s l] eqn:E; [done|].
    assert (s ∈ s :: l) as Hin by (apply elem_of_cons; by left).
    apply Hm in Hin as [Hd Hn]. by destruct (Hn (Hall s Hd)).
Qed.

(** X9: the missing sections are the defined sections without a file, in
    the order of the index; there is no next section exactly when every
    defined section has its file, and otherwise the next section is the
    defined section of lowest number whose file is not there. *)
Theorem next_section_is_lowest_missing (pd : sections_path) (r : section_progress) :
  check_section_progress pd = inr r ->
  sublist (missing_sections r) (defined_sections r)
  /\ (forall s, s ∈ missing_sections r
                <-> s ∈ defined_sections r /\ section_file s ∉ listing pd)
  /\ (next_section r = None
      <-> forall s, s ∈ defined_sections r -> section_file s ∈ listing pd)
  /\ (forall s, next_section r = Some s ->
        s ∈ defined_sections r /\ (section_file s ∉ listing pd)
        /\ (forall s', s' ∈ defined_sections r -> section_file s' ∉ listing pd ->
                       section_number s <= section_number s')).
Proof.
  intros H.
  pose proof (fun s => missing_iff_no_file pd r s H) as Hm.
  destruct (progress_fields pd r H) as (_ & _ & _ & _ & _ & _ & Hmiss & Hnext & _).
  destruct (progress_defined pd r H) as [_ Hsorted].
  split; [rewrite Hmiss; apply sublist_filter|]. split; [exact Hm|].
  rewrite Hnext. split.
  - rewrite head_None. by apply no_missing_iff_all_files.
  - intros s Hs. apply head_Some in Hs as [l E].
    assert (s ∈ missing_sections r) as Hin by (rewrite E; apply elem_of_cons; by left).
    apply Hm in Hin as [Hd Hn]. split; [done|]. split; [done|].
    intros s' Hd' Hn'.
    assert (s' ∈ missing_sections r) as Hin' by by apply Hm.
    assert (StronglySorted (key_le section_number) (missing_sections r)) as Hms.
    { rewrite Hmiss. by apply filter_sorted. }
    rewrite E in Hin', Hms. apply StronglySorted_inv in Hms as [_ Hall].
    apply elem_of_cons in Hin' as [->|Hin']; [done|].
    rewrite Forall_forall in Hall. by apply Hall.
Qed.

Lemma next_section_is_lowest_missing_witness :
  exists r,
    check_section_progress stray_file_dir = inr r
    /\ (next_section r = None
        <-> forall s, s ∈ defined_sections r -> section_file s ∈ listing stray_file_dir).
Proof.
  destruct (check_section_progress stray_file_dir) as [e|r] eqn:E;
    [vm_compute in E; discriminate|].
  exists r. split; [reflexivity|].
  exact (proj1 (proj2 (proj2 (next_section_is_lowest_missing _ r E)))).
Defined.

(** X10: the state is [complete] exactly when the index has a valid
    manifest and the directory holds the file [<name>.md] of every defined
    section. *)
Theorem complete_iff_every_file (pd : sections_path) (r : section_progress) :
  check_section_progress pd = inr r ->
  (state r = complete
   <-> manifest_valid (index_format r) = true
       /\ forall s, s ∈ defined_sections r -> section_file s ∈ listing pd).
Proof.
  intros H.
  rewrite <- (no_missing_iff_all_files pd r H).
  destruct (progress_fields pd r H)
    as (Hie & Hdir & Hfmt & Hnofmt & Hdef & _ & Hmiss & Hnext & Hstate & _).
  rewrite Hstate.
  assert (manifest_valid (index_format r) = true ->
          index_exists r = true /\ nonempty (defined_sections r) = true) as Hval.
  { intros Hv. destruct (index_exists r) eqn:E.
    - split; [done|]. rewrite Hdef, (Hfmt eq_refl) in *.
      by apply valid_defined_nonempty.
    - destruct (Hnofmt eq_refl) as [Hf _]. congruence. }
  destruct (manifest_valid (index_format r)) eqn:Hv.
  - destruct (Hval eq_refl) as [Hie' Hd]. rewrite Hie', (Hdir Hie'), Hd. simpl.
    assert (missing_sections r = [] -> nonempty (completed_sections r) = true) as Hc.
    { rewrite Hmiss. destruct (completed_sections r); [|done]. simpl.
      destruct (defined_sections r) as [|x l]; [done|].
      rewrite filter_cons. case_decide as Hx; [intros ?; discriminate|].
      simpl in Hx. by apply not_elem_of_empty in Hx. }
    destruct (missing_sections r) as [|m ms].
    + rewrite (Hc eq_refl). simpl. by split.
    + simpl. destruct (nonempty (completed_sections r)); split; try done;
        by intros [_ ?].
  - destruct (negb (path_is_dir pd)
              || negb (index_exists r) && negb (nonempty (completed_sections r)));
      [split; [done|by intros [? _]]|].
    destruct (index_exists r); simpl; split; try done; by intros [? _].
Qed.

Lemma complete_iff_every_file_witness :
  exists r,
    check_section_progress one_of_two_dir = inr r
    /\ (state r = complete
        <-> manifest_valid (index_format r) = true
            /\ forall s, s ∈ defined_sections r ->
                         section_file s ∈ listing one_of_two_dir).
Proof.
  destruct (check_section_progress one_of_two_dir) as [e|r] eqn:E;
    [vm_compute in E; discriminate|].
  exists r. split; [reflexivity|].
  exact (complete_iff_every_file _ r E).
Defined.

(** *** Equal numbers *)

Lemma filter_none {A : Type} (P : A -> Prop) `{forall x, Decision (P x)} (l : list A) :
  Forall (fun x => ~ P x) l -> filter P l = [].
Proof.
  induction 1 as [|x l Hx _ IH]; [done|].
  rewrite filter_cons. by case_decide.
Qed.

(** Inserting into a sorted list puts the element behind the elements of
    the same key. *)
Lemma insert_by_filter {A : Type} (key : A -> Z) (k : Z) (x : A) (acc : list A) :
  StronglySorted (key_le key) acc ->
  filter (fun y => key y = k) (insert_by key x acc)
  = filter (fun y => key y = k) acc ++ filter (fun y => key y = k) [x].
Proof.
  induction 1 as [|y l Hl IH Hy]; [done|].
  cbn [insert_by]. destruct (key x <? key y) eqn:E.
  - apply Z.ltb_lt in E.
    change (x :: y :: l) with ([x] ++ (y :: l)). rewrite filter_app.
    destruct (decide (key x = k)) as [Hk|Hk].
    + assert (filter (fun z => key z = k) (y :: l) = []) as ->.
      { apply filter_none. constructor; [lia|].
        eapply Forall_impl; [exact Hy|]. unfold key_le. intros z Hz. lia. }
      by rewrite app_nil_r.
    + assert (filter (fun z => key z = k) [x] = []) as ->.
      { apply filter_none. by repeat constructor. }
      by rewrite app_nil_r.
  - rewrite !filter_cons. case_decide; by rewrite IH.
Qed.

Lemma fold_insert_filter {A : Type} (key : A -> Z) (k : Z) (l acc : list A) :
  StronglySorted (key_le key) acc ->
  filter (fun y => key y = k) (fold_left (fun acc x => insert_by key x acc) l acc)
  = filter (fun y => key y = k) acc ++ filter (fun y => key y = k) l.
Proof.
  revert acc. induction l as [|x l IH]; intros acc Hacc; simpl.
  - by rewrite app_nil_r.
  - rewrite IH by by apply insert_by_sorted.
    rewrite insert_by_filter by done.
    rewrite <- app_assoc. f_equal.
    change (x :: l) with ([x] ++ l). by rewrite filter_app.
Qed.

(** X11: among the completed sections, those with the same number stand
    in the order in which the directory lists their files. *)
Theorem equal_numbers_keep_listing_order (d : sections_path) (l : list string) (k : Z) :
  get_completed_sections d = inr l ->
  filter (fun x => completed_number x = k) l
  = filter (fun x => completed_number x = k)
      (stem <$> filter (fun f => glob_section_md f = true) (listing d)).
Proof.
  unfold get_completed_sections.
  destruct (path_exists d) eqn:Ex; cbn [negb].
  - destruct (forallb _ _); [|discriminate]. intros [= <-].
    unfold sort_by. rewrite (fold_insert_filter _ k); [done|constructor].
  - intros [= <-]. by destruct d.
Qed.

Lemma equal_numbers_keep_listing_order_witness :
  filter (fun x => completed_number x = 1)
    ["section-1-b"; "section-01-a"; "section-2-c"]%string
  = filter (fun x => completed_number x = 1)
      (stem <$> filter (fun f => glob_section_md f = true)
         (listing (Directory ["section-2-c.md"; "section-1-b.md"; "section-01-a.md"]%string
                     None))).
Proof.
  apply (equal_numbers_keep_listing_order
           (Directory ["section-2-c.md"; "section-1-b.md"; "section-01-a.md"]%string None)).
  vm_compute. reflexivity.
Defined.

End ProgressMore.


(** ** Further properties of the TODO list *)

Module TodoMore.
Import Todos TodoSpec ExtraSpec.

Lemma entries_all_pending (current_step : Z) (items : list (string * string * Z)) :
  Forall (fun item => current_step < item.2) items ->
  status <$> (entry current_step <$> items)
  = replicate (List.length items) pending
  /\ filter (fun s => s < current_step) ((fun item => item.2) <$> items) = []
  /\ filter (fun s => current_step < s) ((fun item => item.2) <$> items)
     = (fun item => item.2) <$> items
  /\ current_step ∉ (fun item => item.2) <$> items.
Proof.
  induction 1 as [|[[c a] s] items Hs _ (IH1 & IH2 & IH3 & IH4)].
  - repeat split. apply not_elem_of_nil.
  - cbn [snd] in Hs. rewrite !fmap_cons, !filter_cons. cbn [entry status snd].
    rewrite IH1, IH2, IH3. split; [|split; [|split]].
    + unfold step_status.
      destruct (Z.ltb_spec s current_step); [lia|].
      by destruct (Z.eqb_spec s current_step); [lia|].
    + by destruct (decide (s < current_step)); [lia|].
    + by destruct (decide (current_step < s)); [|lia].
    + intros Hin. apply elem_of_cons in Hin as [->|Hin]; [lia|]. by apply IH4.
Qed.

(** For a table with increasing steps the statuses are a run of
    completed, then the step in progress if it is in the table, then a run
    of pending. *)
Lemma sorted_table_statuses (current_step : Z) (items : list (string * string * Z)) :
  StronglySorted (fun a b => a.2 < b.2) items ->
  status <$> (entry current_step <$> items)
  = replicate
      (List.length (filter (fun s => s < current_step) ((fun item => item.2) <$> items)))
      completed
    ++ (if bool_decide (current_step ∈ (fun item => item.2) <$> items)
        then [in_progress] else [])
    ++ replicate
         (List.length (filter (fun s => current_step < s) ((fun item => item.2) <$> items)))
         pending.
Proof.
  induction 1 as [|[[c a] s] items Hsorted IH Hs]; [done|].
  rewrite !fmap_cons, !filter_cons. cbn [entry status snd].
  unfold step_status at 1.
  destruct (Z.ltb_spec s current_step) as [Hlt|Hge].
  - rewrite IH. destruct (decide (s < current_step)); [|lia].
    destruct (decide (current_step < s)); [lia|]. cbn [List.length replicate app].
    assert (bool_decide (current_step ∈ s :: ((fun item => item.2) <$> items))
            = bool_decide (current_step ∈ (fun item : string * string * Z => item.2) <$> items))
      as ->; [|done].
    apply bool_decide_ext. rewrite elem_of_cons. split; [|tauto].
    intros [->|?]; [lia|done].
  - assert (Forall (fun item : string * string * Z => current_step < item.2) items) as Hall.
    { eapply Forall_impl; [exact Hs|]. intros item Hi. simpl in Hi. lia. }
    destruct (entries_all_pending current_step items Hall) as (E1 & E2 & E3 & E4).
    rewrite E1, E2, E3. destruct (decide (s < current_step)); [lia|].
    destruct (Z.eqb_spec s current_step) as [->|Hne].
    + destruct (decide (current_step < current_step)); [lia|]. rewrite length_fmap.
      by rewrite bool_decide_eq_true_2 by (apply elem_of_cons; by left).
    + destruct (decide (current_step < s)); [|lia]. cbn [List.length].
      rewrite length_fmap. rewrite bool_decide_eq_false_2; [done|].
      intros Hin. apply elem_of_cons in Hin as [?|Hin]; [lia|]. by apply E4.
Qed.

Lemma all_completed_statuses (l : list todo) :
  Forall (fun t => status t = completed) l ->
  status <$> l = replicate (List.length l) completed.
Proof.
  induction 1 as [|t l Ht _ IH]; [done|].
  rewrite fmap_cons, Ht, IH. done.
Qed.

Lemma table_steps_increase :
  StronglySorted (fun a b : string * string * Z => a.2 < b.2) TODO_ITEMS.
Proof. unfold TODO_ITEMS. repeat (constructor; [|repeat constructor]). constructor. Qed.

(** X12: without a replacement list the statuses of the TODO list are a
    run of completed items (the context items and the entries of the steps
    before the current step), then one item in progress if the current step
    is a step of the table and none otherwise, then only pending items; so
    no completed item follows a pending one. *)
Theorem statuses_run_completed_then_pending (current_step : Z)
    (plugin_root planning_dir initial_file : option string)
    (context_check_enabled : option bool) :
  status <$> generate_todos current_step None plugin_root planning_dir
               initial_file context_check_enabled
  = replicate
      (List.length (context_items plugin_root planning_dir initial_file
                      context_check_enabled)
       + List.length (filter (fun s => s < current_step) table_steps))
      completed
    ++ (if bool_decide (current_step ∈ table_steps) then [in_progress] else [])
    ++ replicate (List.length (filter (fun s => current_step < s) table_steps)) pending.
Proof.
  rewrite TodoClaims.generate_todos_None, fmap_app.
  rewrite (sorted_table_statuses current_step TODO_ITEMS table_steps_increase).
  fold table_steps. rewrite replicate_add, <- app_assoc. f_equal.
  apply all_completed_statuses.
  eapply Forall_impl; [apply TodoClaims.context_items_completed|]. by intros t [Ht _].
Qed.

Example retired_step_has_no_item_in_progress :
  count_status in_progress (generate_todos 5 None None None None None) = 0%nat
  /\ count_status completed (generate_todos 5 None None None None None) = 5%nat.
Proof. vm_compute. by split. Qed.

End TodoMore.


(** ** Scanning the planning directory and the resume step *)

Module SetupMore.
Import Sections Setup Todos TodoSpec SetupMain ProgressSpec ProgressFacts ExtraSpec.

Local Arguments check_index_format : simpl never.
Local Arguments get_completed_sections : simpl never.

(** The index and the section files, as the scan and as the progress
    check see them. *)
Lemma scan_index_and_files (dir : planning_dir_t) (r : section_progress) :
  check_section_progress (sections_dir dir) = inr r ->
  sections_index (scan_planning_files dir) = index_exists r
  /\ completed_sections r ≡ₚ stem <$> f_sections (scan_planning_files dir).
Proof.
  intros H.
  destruct (ProgressMore.progress_fields _ r H) as (Hie & _ & _ & _ & _ & Hc & _).
  split.
  - unfold scan_planning_files. cbn [sections_index]. rewrite Hie.
    by destruct (sections_dir dir).
  - unfold scan_planning_files. cbn [f_sections].
    destruct (sections_dir dir) as [| |names index_md] eqn:D; cbn in Hc |- *.
    + by injection Hc as <-.
    + by injection Hc as <-.
    + by apply (ProgressMore.completed_perm (Directory names index_md)).
Qed.

(** X13: on one planning directory the scan and the progress check agree:
    the scan sees an index exactly when the progress record says it exists,
    and the completed sections are the stems of the section files the scan
    lists, so there are as many of the one as of the other. *)
Theorem scan_agrees_with_progress (dir : planning_dir_t) (r : section_progress) :
  check_section_progress (sections_dir dir) = inr r ->
  sections_index (scan_planning_files dir) = index_exists r
  /\ completed_sections r ≡ₚ stem <$> f_sections (scan_planning_files dir)
  /\ List.length (f_sections (scan_planning_files dir))
     = List.length (completed_sections r).
Proof.
  intros H. destruct (scan_index_and_files dir r H) as [Hidx Hp].
  split; [exact Hidx|]. split; [exact Hp|].
  apply Permutation_length in Hp. by rewrite Hp, length_fmap.
Qed.

Lemma scan_agrees_with_progress_witness :
  sections_index (scan_planning_files
    (mk_planning_dir false false false false false false None StepSpec.invalid_index_dir))
  = index_exists StepSpec.invalid_index_progress
  /\ completed_sections StepSpec.invalid_index_progress
     ≡ₚ stem <$> f_sections (scan_planning_files
          (mk_planning_dir false false false false false false None
             StepSpec.invalid_index_dir))
  /\ List.length (f_sections (scan_planning_files
        (mk_planning_dir false false false false false false None
           StepSpec.invalid_index_dir)))
     = List.length (completed_sections StepSpec.invalid_index_progress).
Proof.
  apply (scan_agrees_with_progress
           (mk_planning_dir false false false false false false None
              StepSpec.invalid_index_dir)).
  vm_compute. reflexivity.
Defined.

(** The steps the stages before the sections give. *)
Lemma pre_section_step (files : files_t) :
  ((pre_section_stages files).1 = Some 18 <-> f_sections files <> [])
  /\ (pre_section_stages files).1 <> None
  /\ (pre_section_stages files).1 <> Some 19
  /\ (pre_section_stages files).1 ∈ (Some <$> [18; 17; 15; 14; 12; 11; 10; 8; 6]).
Proof.
  unfold pre_section_stages.
  destruct (f_sections files); cbn [nonempty].
  - destruct (plan_tdd files), (integration_notes files), (nonempty (reviews files)),
      (plan files), (spec files), (interview files), (research files);
      cbn [fst]; (split; [by split|]); (split; [done|]); (split; [done|]);
      apply (bool_decide_unpack _); vm_compute; exact I.
  - cbn [fst]. split; [by split|]. split; [done|]. split; [done|].
    apply (bool_decide_unpack _). vm_compute. exact I.
Qed.

(** X14: for the scan and the progress record of one planning directory
    the resume step is [None] exactly when the state is [complete], 19
    exactly when the state is [partial] or [has_index], and 18 exactly
    when section files exist while the index is absent or invalid. *)
Theorem resume_step_of_directory (dir : planning_dir_t) (r : section_progress) :
  check_section_progress (sections_dir dir) = inr r ->
  let step := (infer_resume_step (scan_planning_files dir) r).1 in
  (step = None <-> state r = complete)
  /\ (step = Some 19 <-> state r = partial \/ state r = has_index)
  /\ (step = Some 18
      <-> completed_sections r <> []
          /\ (state r = fresh \/ state r = invalid_index)).
Proof.
  intros H step. subst step.
  destruct (scan_index_and_files dir r H) as (Hidx & Hlen).
  apply Permutation_length in Hlen. rewrite length_fmap in Hlen. symmetry in Hlen.
  destruct (ProgressMore.fresh_invalid_iff _ r H) as (Hfresh & _).
  destruct (ProgressMore.progress_fields _ r H) as (Hie & _).
  assert (state r = fresh <-> index_exists r = false) as Hf.
  { rewrite Hfresh, Hie. by destruct (index_of (sections_dir dir)). }
  assert (f_sections (scan_planning_files dir) <> [] <-> completed_sections r <> []) as Hne.
  { destruct (f_sections (scan_planning_files dir)), (completed_sections r);
      simpl in Hlen; split; done. }
  destruct (pre_section_step (scan_planning_files dir)) as (H18 & HNone & H19 & _).
  rewrite <- Hne, <- H18.
  unfold infer_resume_step. rewrite Hidx.
  destruct (index_exists r) eqn:E.
  - destruct (state r) eqn:S; cbn [fst];
      try (assert (true = false) by (by apply Hf); discriminate);
      (split; [|split]); split; intros; intuition (try discriminate; try congruence).
  - rewrite (proj2 Hf eq_refl).
    split; [by split|]. split; [split; [done|by intros [|]]|].
    split; [auto|by intros []].
Qed.

Lemma resume_step_of_directory_witness :
  (infer_resume_step
     (scan_planning_files
        (mk_planning_dir false false false true false false None StepSpec.invalid_index_dir))
     StepSpec.invalid_index_progress).1 = Some 18
  <-> completed_sections StepSpec.invalid_index_progress <> []
      /\ (state StepSpec.invalid_index_progress = fresh
          \/ state StepSpec.invalid_index_progress = invalid_index).
Proof.
  refine (proj2 (proj2 (resume_step_of_directory
           (mk_planning_dir false false false true false false None
              StepSpec.invalid_index_dir)
           StepSpec.invalid_index_progress _))).
  vm_compute. reflexivity.
Defined.

(** The resume steps there are. *)
Lemma resume_steps (files : files_t) (sp : section_progress) :
  (infer_resume_step files sp).1
  ∈ None :: (Some <$> [19; 18; 17; 15; 14; 12; 11; 10; 8; 6]).
Proof.
  destruct (pre_section_step files) as (_ & _ & _ & Hpre).
  assert ((pre_section_stages files).1
          ∈ None :: (Some <$> [19; 18; 17; 15; 14; 12; 11; 10; 8; 6])) as Hpre'.
  { do 2 (apply elem_of_cons; right). exact Hpre. }
  unfold infer_resume_step.
  destruct (sections_index files); [|exact Hpre'].
  destruct (state sp); try exact Hpre'.
  - apply elem_of_cons; right. apply elem_of_cons. by left.
  - apply elem_of_cons; right. apply elem_of_cons. by left.
  - apply elem_of_cons. by left.
Qed.

(** Each of these steps has a name, which is the content of its entry of
    the step table. *)
Lemma step_names_agree (step : Z) :
  step ∈ [6; 8; 10; 11; 12; 14; 15; 17; 18; 19] ->
  exists name,
    STEP_NAMES !! step = Some name
    /\ step_name step = name
    /\ (name, step) ∈ (fun item => (item.1.1, item.2)) <$> TODO_ITEMS.
Proof.
  intros Hin.
  repeat (apply elem_of_cons in Hin as [->|Hin];
          [eexists; split; [vm_compute; reflexivity|]; split; [vm_compute; reflexivity|];
           apply (bool_decide_unpack _); vm_compute; exact I|]).
  by apply elem_of_nil in Hin.
Qed.

Lemma resume_step_in_range (files : files_t) (sp : section_progress) (step : Z) :
  (infer_resume_step files sp).1 = Some step ->
  step ∈ [6; 8; 10; 11; 12; 14; 15; 17; 18; 19].
Proof.
  intros H. pose proof (resume_steps files sp) as Hin. rewrite H in Hin.
  apply elem_of_cons in Hin as [|Hin]; [discriminate|].
  apply list_elem_of_fmap in Hin as (s' & [= <-] & Hin).
  repeat (apply elem_of_cons in Hin as [->|Hin];
          [apply (bool_decide_unpack _); vm_compute; exact I|]).
  by apply elem_of_nil in Hin.
Qed.

(** X15: a resume step is one of 6, 8, 10, 11, 12, 14, 15, 17, 18, 19; it
    has an entry in [STEP_NAMES], so the resume message never falls back
    to "Step N", and its name there is the content of the entry of the
    step table with that step. *)
Theorem resume_step_is_named (files : files_t) (sp : section_progress) (step : Z) :
  (infer_resume_step files sp).1 = Some step ->
  step ∈ [6; 8; 10; 11; 12; 14; 15; 17; 18; 19]
  /\ exists name,
       STEP_NAMES !! step = Some name
       /\ step_name step = name
       /\ (name, step) ∈ (fun item => (item.1.1, item.2)) <$> TODO_ITEMS.
Proof.
  intros H. pose proof (resume_step_in_range files sp step H) as Hin.
  split; [exact Hin|]. by apply step_names_agree.
Qed.

Lemma resume_step_is_named_witness :
  12 ∈ [6; 8; 10; 11; 12; 14; 15; 17; 18; 19]
  /\ exists name,
       STEP_NAMES !! 12 = Some name
       /\ step_name 12 = name
       /\ (name, 12) ∈ (fun item => (item.1.1, item.2)) <$> TODO_ITEMS.
Proof.
  apply (resume_step_is_named StepSpec.plan_and_interview StepSpec.invalid_index_progress).
  reflexivity.
Defined.

(** *** The session that [main] reports *)

Lemma main_todos (dir : planning_dir_t) (plugin_root planning_dir file_path : string)
    (file_path_exists : bool) (context_check_enabled : option bool) (sess : session_t) :
  main_after_config dir plugin_root planning_dir file_path file_path_exists
    context_check_enabled = inr sess ->
  exists r,
    check_section_progress (sections_dir dir) = inr r
    /\ resume_from_step sess = (infer_resume_step (scan_planning_files dir) r).1
    /\ files_summary sess = build_files_summary (scan_planning_files dir) r
    /\ mode sess =
         match resume_from_step sess with
         | None => mode_complete
         | Some step =>
             if (step =? 6) && negb (nonempty (files_summary sess))
             then mode_new else mode_resume
         end
    /\ todos sess =
         generate_todos (default 22 (resume_from_step sess)) None (Some plugin_root)
           (Some planning_dir) (Some file_path) context_check_enabled.
Proof.
  unfold main_after_config.
  destruct (check_section_progress (sections_dir dir)) as [e|r]; [discriminate|].
  destruct (infer_resume_step (scan_planning_files dir) r) as [resume_step last] eqn:I.
  intros [= <-]. exists r. cbn. repeat split. by rewrite I.
Qed.

Lemma in_progress_is_current (current_step : Z)
    (plugin_root planning_dir initial_file : option string)
    (context_check_enabled : option bool) (t : todo) :
  t ∈ generate_todos current_step None plugin_root planning_dir initial_file
        context_check_enabled ->
  status t = in_progress ->
  (content t, current_step) ∈ (fun item => (item.1.1, item.2)) <$> TODO_ITEMS.
Proof.
  rewrite TodoClaims.generate_todos_None. intros Hin Hs.
  apply elem_of_app in Hin as [Hin|Hin].
  - pose proof (TodoClaims.context_items_completed plugin_root planning_dir
                  initial_file context_check_enabled) as Hc.
    rewrite Forall_forall in Hc. destruct (Hc t Hin) as [Hcompl _]. congruence.
  - apply list_elem_of_fmap in Hin as ([[c a] s] & -> & Hin).
    cbn [entry status content fst snd] in *.
    destruct (TodoClaims.step_status_cases s current_step) as (H1 & H2 & H3).
    assert (s = current_step) as <-.
    { destruct (Z.lt_trichotomy s current_step) as [Hlt|[Heq|Hgt]]; [|done|].
      - rewrite (H1 Hlt) in Hs. discriminate.
      - rewrite (H3 Hgt) in Hs. discriminate. }
    apply list_elem_of_fmap. by exists (c, a, s).
Qed.

Lemma table_names_unique (a b : string) (s : Z) :
  (a, s) ∈ (fun item => (item.1.1, item.2)) <$> TODO_ITEMS ->
  (b, s) ∈ (fun item => (item.1.1, item.2)) <$> TODO_ITEMS ->
  a = b.
Proof.
  assert (forall l : list (string * Z), NoDup (l.*2) ->
            (a, s) ∈ l -> (b, s) ∈ l -> a = b) as Hgen.
  { induction l as [|[x y] l IH]; intros Hnd Ha Hb; [by apply elem_of_nil in Ha|].
    rewrite fmap_cons in Hnd. apply NoDup_cons in Hnd as [Hy Hnd]. cbn [snd] in Hy.
    apply elem_of_cons in Ha as [Ha|Ha]; apply elem_of_cons in Hb as [Hb|Hb].
    - congruence.
    - injection Ha as -> ->. destruct Hy. apply list_elem_of_fmap. by exists (b, y).
    - injection Hb as -> ->. destruct Hy. apply list_elem_of_fmap. by exists (a, y).
    - by apply IH. }
  apply Hgen. apply (bool_decide_unpack _). vm_compute. exact I.
Qed.

(** X16: the TODO list that [main] prints has exactly one item in
    progress: the entry of the step table whose name is the name of the
    resume step or, when the workflow is complete, "Output summary", with
    no item left pending. *)
Theorem main_todos_one_in_progress (dir : planning_dir_t)
    (plugin_root planning_dir file_path : string) (file_path_exists : bool)
    (context_check_enabled : option bool) (sess : session_t) :
  main_after_config dir plugin_root planning_dir file_path file_path_exists
    context_check_enabled = inr sess ->
  count_status in_progress (todos sess) = 1%nat
  /\ (forall t, t ∈ todos sess -> status t = in_progress ->
        content t = match resume_from_step sess with
                    | Some step => step_name step
                    | None => "Output summary"%string
                    end)
  /\ (resume_from_step sess = None -> count_status pending (todos sess) = 0%nat).
Proof.
  intros H. destruct (main_todos _ _ _ _ _ _ _ H) as (r & _ & Hres & _ & _ & Htodos).
  pose proof (resume_steps (scan_planning_files dir) r) as Hsteps.
  rewrite <- Hres in Hsteps.
  pose proof (TodoClaims.context_items_completed (Some plugin_root) (Some planning_dir)
                (Some file_path) context_check_enabled) as Hc.
  assert (forall st, st <> completed ->
            count_status st (context_items (Some plugin_root) (Some planning_dir)
                               (Some file_path) context_check_enabled) = 0%nat) as Hctx.
  { intros st Hst. apply TodoClaims.count_status_none.
    eapply Forall_impl; [exact Hc|]. intros t [Ht _]. by rewrite Ht. }
  split; [|split].
  - rewrite Htodos, TodoClaims.generate_todos_None, TodoClaims.count_status_app,
      Hctx by done.
    apply elem_of_cons in Hsteps as [->|Hsteps]; [by vm_compute|].
    apply list_elem_of_fmap in Hsteps as (s' & -> & Hsteps).
    repeat (apply elem_of_cons in Hsteps as [->|Hsteps]; [by vm_compute|]).
    by apply elem_of_nil in Hsteps.
  - intros t Hin Hs. rewrite Htodos in Hin.
    pose proof (in_progress_is_current _ _ _ _ _ t Hin Hs) as Hcur.
    destruct (resume_from_step sess) as [step|] eqn:E.
    + destruct (step_names_agree step) as (name & _ & -> & Hname).
      { apply (resume_step_in_range (scan_planning_files dir) r). by rewrite <- Hres. }
      by apply (table_names_unique _ _ step).
    + apply (table_names_unique _ _ 22); [done|].
      apply (bool_decide_unpack _). vm_compute. exact I.
  - intros E. rewrite Htodos, E, TodoClaims.generate_todos_None,
      TodoClaims.count_status_app, Hctx by done.
    by vm_compute.
Qed.

Lemma main_todos_one_in_progress_witness :
  exists sess,
    main_after_config example_planning_dir "/plugin" "/plan" "/plan/spec.md" true
      (Some true) = inr sess
    /\ count_status in_progress (todos sess) = 1%nat.
Proof.
  destruct (main_after_config example_planning_dir "/plugin" "/plan" "/plan/spec.md"
              true (Some true)) as [e|sess] eqn:E; [vm_compute in E; discriminate|].
  exists sess. split; [reflexivity|].
  exact (proj1 (main_todos_one_in_progress _ _ _ _ _ _ sess E)).
Defined.

(** The line about the sections, if there is one, makes the summary
    non-empty. *)
Lemma sections_line_nil (summary : list string) (files : files_t)
    (sp : section_progress) (a c : string) (b : state_t -> string) :
  (if nonempty (f_sections files) || sections_index files then
     match state sp with
     | complete => summary ++ [a]
     | st => if sections_index files then summary ++ [b st] else summary ++ [c]
     end
   else summary) = []
  <-> summary = [] /\ f_sections files = [] /\ sections_index files = false.
Proof.
  assert (forall x : string, summary ++ [x] <> []) as Hne
    by (intros x; destruct summary; discriminate).
  destruct (f_sections files), (sections_index files); cbn [nonempty orb].
  - split; [|by intros (_ & _ & ?)]. destruct (state sp); intros E; by apply Hne in E.
  - by split; [|intros (? & _)].
  - split; [|by intros (_ & ? & _)]. destruct (state sp); intros E; by apply Hne in E.
  - split; [|by intros (_ & ? & _)]. destruct (state sp); intros E; by apply Hne in E.
Qed.

(** The summary is empty exactly when the scan found nothing. *)
Lemma summary_nil_iff (files : files_t) (sp : section_progress) :
  build_files_summary files sp = [] <-> nothing_found files.
Proof.
  unfold build_files_summary, nothing_found. cbv zeta.
  rewrite (sections_line_nil _ files sp _ _
             (fun st => Str.concat ["sections/ ("%string; progress sp; ", "%string;
                                    state_name st; ")"%string])).
  destruct (research files), (interview files), (spec files), (plan files),
    (integration_notes files), (plan_tdd files), (reviews files);
    cbn [nonempty app]; split; intros H; repeat split;
    try done; try (by destruct H as (?&?&?)); by destruct H as (?&?&?&?&?&?&?&?&?).
Qed.

(** X17: [main] reports the mode "new" exactly when the scan of the
    planning directory found nothing (no artifact file, no review, no
    section file and no index), which is exactly when the files summary is
    empty; then the resume step is 6.  The converse fails: step 6 with
    something found is mode "resume". *)
Theorem new_mode_iff_nothing_found (dir : planning_dir_t)
    (plugin_root planning_dir file_path : string) (file_path_exists : bool)
    (context_check_enabled : option bool) (sess : session_t) :
  main_after_config dir plugin_root planning_dir file_path file_path_exists
    context_check_enabled = inr sess ->
  (mode sess = mode_new <-> nothing_found (scan_planning_files dir))
  /\ (files_summary sess = [] <-> nothing_found (scan_planning_files dir))
  /\ (mode sess = mode_new -> resume_from_step sess = Some 6)
  /\ (mode sess = mode_complete <-> resume_from_step sess = None).
Proof.
  intros H. destruct (main_todos _ _ _ _ _ _ _ H) as (r & _ & Hres & Hsum & Hmode & _).
  pose proof (summary_nil_iff (scan_planning_files dir) r) as Hnil.
  rewrite <- Hsum in Hnil.
  assert (nothing_found (scan_planning_files dir) -> resume_from_step sess = Some 6)
    as Hsix.
  { intros (H1&H2&H3&H4&H5&H6&H7&H8&H9). rewrite Hres.
    unfold infer_resume_step, pre_section_stages.
    by rewrite H9, H8, H7, H6, H5, H4, H3, H2, H1. }
  assert (nonempty (files_summary sess) = false <-> files_summary sess = []) as Hne.
  { by destruct (files_summary sess). }
  split; [|split; [exact Hnil|split]].
  - rewrite <- Hnil, <- Hne, Hmode. split.
    + destruct (resume_from_step sess) as [step|]; [|discriminate].
      destruct (step =? 6); [|discriminate].
      by destruct (nonempty (files_summary sess)).
    + intros Hf. rewrite (Hsix (proj1 Hnil (proj1 Hne Hf))), Hf. reflexivity.
  - rewrite Hmode. destruct (resume_from_step sess) as [step|]; [|discriminate].
    destruct (Z.eqb_spec step 6) as [->|]; [done|discriminate].
  - rewrite Hmode. destruct (resume_from_step sess) as [step|]; [|by split].
    by destruct ((step =? 6) && negb (nonempty (files_summary sess))).
Qed.

Lemma new_mode_iff_nothing_found_witness :
  exists sess,
    main_after_config only_invalid_index_dir "/plugin" "/plan" "/plan/spec.md" true
      (Some true) = inr sess
    /\ (mode sess = mode_new <-> nothing_found (scan_planning_files only_invalid_index_dir)).
Proof.
  destruct (main_after_config only_invalid_index_dir "/plugin" "/plan" "/plan/spec.md"
              true (Some true)) as [e|sess] eqn:E; [vm_compute in E; discriminate|].
  exists sess. split; [reflexivity|].
  exact (proj1 (new_mode_iff_nothing_found _ _ _ _ _ _ sess E)).
Defined.

(** An index without a manifest and nothing else: the resume step is 6
    as for a new session, but the mode is "resume". *)
Example invalid_index_alone_resumes_at_6 :
  match main_after_config only_invalid_index_dir "/plugin" "/plan" "/plan/spec.md"
          true (Some true) with
  | inr sess =>
      resume_from_step sess = Some 6 /\ mode sess = mode_resume
      /\ message sess
         = "Resuming from step 6 (Research decision). Last completed: none"%string
      /\ files_summary sess = ["sections/ (0/0, invalid_index)"%string]
  | inl _ => False
  end.
Proof. vm_compute. by repeat split. Qed.

End SetupMore.


(** ** The section TODO list *)

Module SectionTodosMore.
Import Sections Todos TodoSpec GenerateSectionTodos ProgressSpec ExtraSpec.

Local Arguments check_index_format : simpl never.
Local Arguments get_completed_sections : simpl never.
Local Arguments generate_todos : simpl never.

Lemma section_todos_cases (pd : sections_path) (cfg : session_config_t)
    (res : section_todos_result) :
  generate_section_todos pd cfg = inr res ->
  exists r,
    check_section_progress pd = inr r
    /\ st_state res = state r
    /\ ((state r = fresh \/ state r = invalid_index)
        /\ st_success res = false /\ is_Some (st_error res) /\ st_todos res = []
        /\ st_total_sections res = 0%nat /\ st_completed_sections res = 0%nat
        /\ st_missing_sections res = []
        \/ state r = complete
           /\ st_success res = true /\ st_error res = None
           /\ st_todos res
              = generate_todos GENERATE_SECTION_TODOS_STEP None (cfg_plugin_root cfg)
                  (cfg_planning_dir cfg) (cfg_initial_file cfg)
                  (Some (config_check_enabled cfg))
           /\ st_total_sections res = List.length (defined_sections r)
           /\ st_completed_sections res = List.length (completed_sections r)
           /\ st_missing_sections res = []
        \/ (state r = partial \/ state r = has_index)
           /\ st_success res = true /\ st_error res = None
           /\ st_todos res
              = generate_todos GENERATE_SECTION_TODOS_STEP
                  (Some (generate_section_todo_items (defined_sections r)
                           (completed_sections r)))
                  (cfg_plugin_root cfg) (cfg_planning_dir cfg) (cfg_initial_file cfg)
                  (Some (config_check_enabled cfg))
           /\ st_total_sections res = List.length (defined_sections r)
           /\ st_completed_sections res = List.length (completed_sections r)
           /\ st_missing_sections res = missing_sections r).
Proof.
  unfold generate_section_todos.
  destruct (check_section_progress pd) as [e|r]; [discriminate|].
  intros H. exists r. split; [done|].
  destruct (state r) eqn:S; injection H as <-; cbn; (split; [done|]).
  - left. repeat split; eauto.
  - right. right. repeat split; eauto.
  - right. right. repeat split; eauto.
  - right. left. by repeat split.
  - left. repeat split; eauto.
Qed.

(** X18: the section TODO list is generated (success, no error) exactly
    when [index.md] has a valid manifest; otherwise there is an error
    message, no TODO item, and the counts are zero.  On success the counts
    and the missing sections are those of the progress record. *)
Theorem section_todos_iff_valid_manifest (pd : sections_path) (cfg : session_config_t)
    (res : section_todos_result) :
  generate_section_todos pd cfg = inr res ->
  exists r,
    check_section_progress pd = inr r
    /\ (st_success res = true <-> manifest_valid (index_format r) = true)
    /\ (st_success res = true <-> st_error res = None)
    /\ (st_success res = false ->
        st_todos res = [] /\ st_total_sections res = 0%nat
        /\ st_completed_sections res = 0%nat /\ st_missing_sections res = [])
    /\ (st_success res = true ->
        st_total_sections res = List.length (defined_sections r)
        /\ st_completed_sections res = List.length (completed_sections r)
        /\ st_missing_sections res = missing_sections r).
Proof.
  intros H. destruct (section_todos_cases pd cfg res H) as (r & Hr & _ & Hcases).
  exists r. split; [done|].
  destruct (ProgressMore.fresh_invalid_iff pd r Hr) as (Hfresh & Hinv).
  destruct (ProgressMore.progress_fields pd r Hr)
    as (Hie & _ & _ & Hnofmt & _ & _ & _ & _ & Hstate & _).
  assert (manifest_valid (index_format r) = true
          <-> ~ (state r = fresh \/ state r = invalid_index)) as Hvalid.
  { rewrite Hfresh, Hinv. split.
    - intros Hv [Hn|[_ Hf]]; [|congruence].
      assert (index_exists r = false) as E by (by rewrite Hie, Hn).
      destruct (Hnofmt E). congruence.
    - intros Hn. destruct (manifest_valid (index_format r)) eqn:Hv; [done|].
      destruct Hn. destruct (index_of pd); [right; eauto|by left]. }
  assert (state r = complete -> missing_sections r = []) as Hcompl.
  { rewrite Hstate.
    destruct (negb (path_is_dir pd) || _); [discriminate|].
    destruct (index_exists r && negb _); [discriminate|].
    destruct (index_exists r && negb _); [discriminate|].
    destruct (index_exists r); cbn [andb]; [|discriminate].
    by destruct (missing_sections r). }
  destruct Hcases as [(Hst & Hs & [e He] & Ht & H1 & H2 & H3)
                     |[(Hst & Hs & He & Ht & H1 & H2 & H3)
                      |(Hst & Hs & He & Ht & H1 & H2 & H3)]];
    rewrite Hs, He, Hvalid.
  - repeat split; try done; intros; intuition discriminate.
  - specialize (Hcompl Hst). rewrite Hcompl.
    repeat split; try done; intros; intuition congruence.
  - repeat split; try done; intros; destruct Hst; intuition congruence.
Qed.

Lemma section_todos_iff_valid_manifest_witness :
  exists res r,
    generate_section_todos one_of_two_dir
      (mk_session_config (Some "/plugin"%string) None None None) = inr res
    /\ check_section_progress one_of_two_dir = inr r
    /\ (st_success res = true <-> manifest_valid (index_format r) = true).
Proof.
  destruct (generate_section_todos one_of_two_dir
              (mk_session_config (Some "/plugin"%string) None None None))
    as [e|res] eqn:E; [vm_compute in E; discriminate|].
  destruct (section_todos_iff_valid_manifest _ _ res E) as (r & Hr & Hiff & _).
  exists res, r. exact (conj eq_refl (conj Hr Hiff)).
Defined.

(** *** The items of the sections *)

Lemma section_items_contents (all_sections done_sections : list string) :
  content <$> generate_section_todo_items all_sections done_sections
  = section_todo_content <$> all_sections.
Proof.
  unfold generate_section_todo_items.
  induction all_sections as [|x l IH]; [done|].
  rewrite !fmap_cons. by rewrite IH.
Qed.

Lemma section_items_pending (all_sections done_sections : list string) :
  content <$> filter (fun t => status t = pending)
                (generate_section_todo_items all_sections done_sections)
  = section_todo_content
      <$> filter (fun s => s ∉ (list_to_set done_sections : gset string)) all_sections.
Proof.
  unfold generate_section_todo_items.
  induction all_sections as [|x l IH]; [done|].
  rewrite fmap_cons, !filter_cons. cbn [status].
  destruct (decide (x ∈ (list_to_set done_sections : gset string))) as [Hx|Hx].
  - destruct (decide (completed = pending)); [discriminate|].
    destruct (decide (x ∉ (list_to_set done_sections : gset string))); [done|exact IH].
  - destruct (decide (pending = pending)); [|done].
    destruct (decide (x ∉ (list_to_set done_sections : gset string))); [|done].
    rewrite !fmap_cons. by rewrite IH.
Qed.

Lemma section_items_not_in_progress (all_sections done_sections : list string) :
  Forall (fun t => status t <> in_progress)
    (generate_section_todo_items all_sections done_sections).
Proof.
  unfold generate_section_todo_items. apply Forall_fmap, Forall_forall.
  intros x _. simpl. by case_decide.
Qed.

(** X19: for the states [partial] and [has_index] the TODO list holds,
    in place of the two placeholder entries, one item per defined section
    in the order of the index, each naming its section; the pending ones
    among them are exactly the missing sections, in order; and no item of
    the whole list is in progress. *)
Theorem expanded_todos_follow_progress (pd : sections_path) (cfg : session_config_t)
    (res : section_todos_result) :
  generate_section_todos pd cfg = inr res ->
  st_state res = partial \/ st_state res = has_index ->
  exists r,
    check_section_progress pd = inr r
    /\ st_todos res
       = context_items (cfg_plugin_root cfg) (cfg_planning_dir cfg)
           (cfg_initial_file cfg) (Some (config_check_enabled cfg))
         ++ (entry 19 <$> take 18 TODO_ITEMS)
         ++ generate_section_todo_items (defined_sections r) (completed_sections r)
         ++ (entry 19 <$> drop 20 TODO_ITEMS)
    /\ content <$> generate_section_todo_items (defined_sections r) (completed_sections r)
       = section_todo_content <$> defined_sections r
    /\ content <$> filter (fun t => status t = pending)
                     (generate_section_todo_items (defined_sections r)
                        (completed_sections r))
       = section_todo_content <$> missing_sections r
    /\ count_status in_progress (st_todos res) = 0%nat.
Proof.
  intros H Hst. destruct (section_todos_cases pd cfg res H) as (r & Hr & Hstate & Hcases).
  exists r. split; [done|].
  assert (st_todos res
          = generate_todos 19
              (Some (generate_section_todo_items (defined_sections r)
                       (completed_sections r)))
              (cfg_plugin_root cfg) (cfg_planning_dir cfg) (cfg_initial_file cfg)
              (Some (config_check_enabled cfg))) as Htodos.
  { rewrite Hstate in Hst.
    destruct Hcases as [([|] & _)|[(? & _)|(_ & _ & _ & Ht & _)]];
      try (destruct Hst; congruence). exact Ht. }
  rewrite Htodos, TodoClaims.generate_todos_Some.
  split; [done|]. split; [apply section_items_contents|]. split.
  - rewrite section_items_pending.
    by destruct (ProgressMore.progress_fields pd r Hr)
      as (_ & _ & _ & _ & _ & _ & -> & _).
  - rewrite !TodoClaims.count_status_app.
    rewrite (TodoClaims.count_status_none in_progress (context_items _ _ _ _)).
    + rewrite (TodoClaims.count_status_none in_progress
                 (generate_section_todo_items _ _))
        by apply section_items_not_in_progress.
      by vm_compute.
    + eapply Forall_impl; [apply TodoClaims.context_items_completed|].
      intros t [Ht _]. by rewrite Ht.
Qed.

Lemma expanded_todos_follow_progress_witness :
  exists res r,
    generate_section_todos one_of_two_dir
      (mk_session_config (Some "/plugin"%string) None None None) = inr res
    /\ check_section_progress one_of_two_dir = inr r
    /\ content <$> filter (fun t => status t = pending)
                     (generate_section_todo_items (defined_sections r)
                        (completed_sections r))
       = section_todo_content <$> missing_sections r
    /\ count_status in_progress (st_todos res) = 0%nat.
Proof.
  destruct (generate_section_todos one_of_two_dir
              (mk_session_config (Some "/plugin"%string) None None None))
    as [e|res] eqn:E; [vm_compute in E; discriminate|].
  assert (st_state res = partial \/ st_state res = has_index) as Hst.
  { vm_compute in E. injection E as <-. by left. }
  destruct (expanded_todos_follow_progress _ _ res E Hst) as (r & Hr & _ & _ & Hp & Hc).
  exists res, r. exact (conj eq_refl (conj Hr (conj Hp Hc))).
Defined.

(** X20: when [index.md] exists without a valid manifest the error is
    "Invalid index.md: " followed by the message of the format check
    (never by "None"); when it does not exist the error says that no
    index was found. *)
Theorem section_todos_errors (pd : sections_path) (cfg : session_config_t)
    (res : section_todos_result) :
  generate_section_todos pd cfg = inr res ->
  st_success res = false ->
  exists r,
    check_section_progress pd = inr r
    /\ (index_of pd = None ->
        st_error res = Some
          "No sections/index.md found. Create the section index first (step 18)."%string)
    /\ (is_Some (index_of pd) ->
        exists msg,
          if_error (check_index_format (index_of pd)) = Some msg
          /\ st_error res = Some (Str.concat ["Invalid index.md: "%string; msg])).
Proof.
  intros H Hfail. unfold generate_section_todos in H.
  destruct (check_section_progress pd) as [e|r] eqn:Hr; [discriminate|].
  exists r. split; [done|].
  destruct (ProgressMore.fresh_invalid_iff pd r Hr) as (Hfresh & Hinv).
  destruct (ProgressMore.progress_fields pd r Hr) as (Hie & _ & Hfmt & _).
  destruct (state r) eqn:S; injection H as <-; try discriminate; cbn.
  - pose proof (proj1 Hfresh eq_refl) as S'. split; [done|]. rewrite S'. by intros [? ?].
  - destruct (proj1 Hinv eq_refl) as [Hsome Hv].
    split; [intros E; rewrite E in Hsome; by destruct Hsome|].
    intros _. rewrite Hfmt in * by (rewrite Hie; by apply bool_decide_eq_true_2).
    destruct (ManifestMore.index_format_shape (index_of pd))
      as [[Hv' _]|(_ & [msg Hmsg] & _)]; [congruence|].
    exists msg. by rewrite Hmsg.
Qed.

Lemma section_todos_errors_witness :
  exists res r,
    generate_section_todos StepSpec.invalid_index_dir
      (mk_session_config None None None None) = inr res
    /\ check_section_progress StepSpec.invalid_index_dir = inr r
    /\ (is_Some (index_of StepSpec.invalid_index_dir) ->
        exists msg,
          if_error (check_index_format (index_of StepSpec.invalid_index_dir)) = Some msg
          /\ st_error res = Some (Str.concat ["Invalid index.md: "%string; msg])).
Proof.
  destruct (generate_section_todos StepSpec.invalid_index_dir
              (mk_session_config None None None None))
    as [e|res] eqn:E; [vm_compute in E; discriminate|].
  assert (st_success res = false) as Hf.
  { vm_compute in E. by injection E as <-. }
  destruct (section_todos_errors _ _ res E Hf) as (r & Hr & _ & He).
  exists res, r. exact (conj eq_refl (conj Hr He)).
Defined.


End SectionTodosMore.
